(** * Fraud-detection notebook and backend build file: a shallow embedding

    The notebook [Fraud_Detection_Example.ipynb] is sequential glue code over
    external libraries, and the build file packages a native backend.  Each
    section below embeds one cell (or one build stage) as a Rocq function and
    proves the properties stated about it.  External library calls (NumPy,
    pandas, cuDF, the operating system) are modelled by their documented
    behaviour; the code of the notebook itself is transcribed line by line. *)

From Stdlib Require Import ZArith QArith List Ascii String Lia Bool.
From stdpp Require Import gmap strings list fin_maps sorting pretty.

Local Open Scope Z_scope.

(** ** Python exceptions

    Fallible Python code returns a [result]: either the value or the exception
    that was raised. *)

Inductive exn : Type :=
  | ZeroDivisionError
  | ValueError
  | KeyError
  | InferenceServerException.

Inductive result (A : Type) : Type :=
  | Ok (a : A)
  | Raise (e : exn).

Arguments Ok {A} a.
Arguments Raise {A} e.

Definition bind {A B : Type} (r : result A) (k : A -> result B) : result B :=
  match r with
  | Ok a => k a
  | Raise e => Raise e
  end.

(** Python's [a // b] on integers: floor division, raising on a zero divisor.
    [Z.div] rounds towards minus infinity like Python does. *)
Definition floordiv (a b : Z) : result Z :=
  if decide (b = 0) then Raise ZeroDivisionError else Ok (a / b).

(** Python's [a % b]: the remainder has the sign of the divisor, as [Z.modulo]. *)
Definition pymod (a b : Z) : result Z :=
  if decide (b = 0) then Raise ZeroDivisionError else Ok (a mod b).

(** ** Batching: [np.array_split] and [create_batches] (cell 424da1e7) *)

Module Batching.

Section WithRows.

(** A 2-D array is the list of its rows; the row type is left open. *)
Context {row : Type}.

(** [sary[st:end]] for non-negative bounds. *)
Definition slice (sary : list row) (st en : Z) : list row :=
  drop (Z.to_nat st) (take (Z.to_nat en) sary).

(** [numpy.cumsum] over a list of integers. *)
Fixpoint cumsum_from (acc : Z) (xs : list Z) : list Z :=
  match xs with
  | [] => []
  | x :: xs' => (acc + x) :: cumsum_from (acc + x) xs'
  end.

Definition cumsum (xs : list Z) : list Z := cumsum_from 0 xs.

(** [numpy.array_split(ary, Nsections)] along axis 0, with a scalar second
    argument:
<<
    Nsections = int(indices_or_sections)
    if Nsections <= 0: raise ValueError(...)
    Neach_section, extras = divmod(Ntotal, Nsections)
    section_sizes = ([0] + extras * [Neach_section+1]
                         + (Nsections-extras) * [Neach_section])
    div_points = array(section_sizes).cumsum()
    for i in range(Nsections):
        st = div_points[i]; end = div_points[i + 1]
        sub_arys.append(sary[st:end])
>> *)
Definition section_sizes (Ntotal Nsections : Z) : list Z :=
  let Neach_section := Ntotal / Nsections in
  let extras := Ntotal mod Nsections in
  [0] ++ replicate (Z.to_nat extras) (Neach_section + 1)
      ++ replicate (Z.to_nat (Nsections - extras)) Neach_section.

(** The section sizes without the leading zero. *)
Definition part_sizes (Ntotal Nsections : Z) : list Z :=
  replicate (Z.to_nat (Ntotal mod Nsections)) (Ntotal / Nsections + 1)
  ++ replicate (Z.to_nat (Nsections - Ntotal mod Nsections)) (Ntotal / Nsections).

Definition array_split (ary : list row) (Nsections : Z) : result (list (list row)) :=
  let Ntotal := Z.of_nat (length ary) in
  if decide (Nsections <= 0) then Raise ValueError
  else
    let div_points := cumsum (section_sizes Ntotal Nsections) in
    Ok (map (fun i : nat =>
               let st := nth i div_points 0 in
               let en := nth (S i) div_points 0 in
               slice ary st en)
            (seq 0 (Z.to_nat Nsections))).

Definition GPU_COUNT : Z := 8.

(** [create_batches] reads the notebook global [max_batch_size].
<<
    chunks = (arr.shape[0] // max_batch_size +
              int(bool(arr.shape[0] % max_batch_size)
                  or arr.shape[0] < max_batch_size))
    return np.array_split(arr, max(GPU_COUNT, chunks))
>> *)
Definition chunk_count (max_batch_size n : Z) : result Z :=
  bind (floordiv n max_batch_size) (fun q =>
  bind (pymod n max_batch_size) (fun r =>
  Ok (q + (if negb (r =? 0) || (n <? max_batch_size) then 1 else 0)))).

Definition create_batches (max_batch_size : Z) (arr : list row)
  : result (list (list row)) :=
  bind (chunk_count max_batch_size (Z.of_nat (length arr))) (fun chunks =>
  array_split arr (Z.max GPU_COUNT chunks)).

(** The number of sections [create_batches] asks [array_split] for. *)
Definition sections (max_batch_size n : Z) : Z :=
  Z.max GPU_COUNT
    (n / max_batch_size
     + (if negb (n mod max_batch_size =? 0) || (n <? max_batch_size) then 1 else 0)).

(** The chunks as a recursion over the section sizes, with the running
    division point as an accumulator.  [array_split] computes the same list by
    index; see [sub_arys_by_index]. *)
Fixpoint chunks_from (ary : list row) (off : Z) (sizes : list Z) : list (list row) :=
  match sizes with
  | [] => []
  | s :: sizes' => slice ary off (off + s) :: chunks_from ary (off + s) sizes'
  end.

End WithRows.

End Batching.

(** ** Waiting for the server (cell 66742762) *)

Module Readiness.

Definition TIMEOUT : Q := 60.

(** The loop talks to two things outside the notebook: the server, through
    [client.is_server_ready()], and the clock, through [time.time()].  A
    [world] fixes what they answer in each iteration of the loop (iterations
    are counted from 0):
    - [is_server_ready i] is what the probe of iteration [i] does: it returns
      [True] or [False], or it raises;
    - [elapsed i] is the value of [time.time() - server_start], in seconds,
      when iteration [i] evaluates it. *)
Record world : Type := {
  is_server_ready : nat -> result bool;
  elapsed : nat -> Q
}.

(** How one run of the loop body ends. *)
Inductive control : Type :=
  | Break                 (* [break] *)
  | Continue              (* falls through to [time.sleep(1)] *)
  | Propagate (e : exn).  (* an exception no handler catches *)

(** [client.is_server_ready() or time.time() - server_start > TIMEOUT]:
    [or] evaluates its right operand only when the left one returned false. *)
Definition loop_condition (w : world) (i : nat) : result bool :=
  bind (is_server_ready w i) (fun ready =>
  if ready then Ok true
  else Ok (negb (Qle_bool (elapsed w i) TIMEOUT))).

(**
<<
    try:
        if <condition>:
            break
    except triton_utils.InferenceServerException:
        pass
    time.sleep(1)
>> *)
Definition loop_body (w : world) (i : nat) : control :=
  match loop_condition w i with
  | Ok true => Break
  | Ok false => Continue
  | Raise InferenceServerException => Continue
  | Raise e => Propagate e
  end.

(** How the whole loop ends, when it does. *)
Inductive outcome : Type :=
  | Proceeds (iterations : nat)   (* left by [break] in that iteration *)
  | Fails (e : exn).

(** [while True: ...], run for at most [fuel] iterations starting with
    iteration [i]; [None] when the loop is still running after them. *)
Fixpoint wait_loop (w : world) (fuel : nat) (i : nat) : option outcome :=
  match fuel with
  | O => None
  | S fuel' =>
      match loop_body w i with
      | Break => Some (Proceeds i)
      | Continue => wait_loop w fuel' (S i)
      | Propagate e => Some (Fails e)
      end
  end.

(** [time.sleep(1)] suspends for at least one second, so iteration [i] reads
    the clock at least [i] seconds after the start. *)
Definition sleeps_one_second (w : world) : Prop :=
  forall i : nat, (inject_Z (Z.of_nat i) <= elapsed w i)%Q.

(** A server that is never reachable: every probe raises
    [InferenceServerException], and a second passes per iteration. *)
Definition unreachable_server : world := {|
  is_server_ready := fun _ => Raise InferenceServerException;
  elapsed := fun i => inject_Z (Z.of_nat i)
|}.

(** A server that comes up after five seconds: the first five probes raise,
    the later ones report it ready. *)
Definition starting_server : world := {|
  is_server_ready := fun i =>
    if (i <? 5)%nat then Raise InferenceServerException else Ok true;
  elapsed := fun i => inject_Z (Z.of_nat i)
|}.

(** A client whose third probe fails with an exception of another class. *)
Definition failing_client : world := {|
  is_server_ready := fun i =>
    if (i <? 2)%nat then Raise InferenceServerException else Raise ValueError;
  elapsed := fun i => inject_Z (Z.of_nat i)
|}.

(** A server that is reachable and never ready. *)
Definition busy_server : world := {|
  is_server_ready := fun _ => Ok false;
  elapsed := fun i => inject_Z (Z.of_nat i)
|}.

End Readiness.

(** ** Training (cells 9aec11f0, fcc239af, 8f57524f) *)

Module Training.

(** The keyword arguments [train_model] passes to [xgb.XGBClassifier]. *)
Record classifier_params : Type := {
  tree_method : string;
  enable_categorical : bool;
  use_label_encoder : bool;
  predictor : string;
  eval_metric : string;
  objective : string;
  max_depth : Z;
  n_estimators : Z
}.

Section WithData.

(** The training and test sets are notebook globals fixed before the first
    training cell runs; what they hold is left open. *)
Context {dataset : Type}.
Variables (X_train y_train X_test y_test : dataset).
Variable USE_CATEGORICAL : bool.

(** One invocation of the external trainer: the classifier that is built and
    the arguments of its [fit]. *)
Record trainer_call : Type := {
  params : classifier_params;
  fit_X : dataset;
  fit_y : dataset;
  eval_set : list (dataset * dataset)
}.

(** The trainer is a black box.  Running notebook code appends to the log of
    trainer invocations; a trained model is known by the invocation that
    produced it. *)
Definition trainer_log : Type := list trainer_call.

Definition fit (call : trainer_call) (log : trainer_log) : trainer_call * trainer_log :=
  (call, log ++ [call]).

(**
<<
    def train_model(num_trees, max_depth):
        model = xgb.XGBClassifier(
            tree_method='gpu_hist', enable_categorical=USE_CATEGORICAL,
            use_label_encoder=False, predictor='gpu_predictor',
            eval_metric='aucpr', objective='binary:logistic',
            max_depth=max_depth, n_estimators=num_trees)
        model.fit(X_train, y_train, eval_set=[(X_test, y_test)])
        return model
>> *)
Definition train_model (num_trees max_depth_ : Z) (log : trainer_log)
  : trainer_call * trainer_log :=
  let model := {|
    tree_method := "gpu_hist";
    enable_categorical := USE_CATEGORICAL;
    use_label_encoder := false;
    predictor := "gpu_predictor";
    eval_metric := "aucpr";
    objective := "binary:logistic";
    max_depth := max_depth_;
    n_estimators := num_trees
  |} in
  fit {| params := model; fit_X := X_train; fit_y := y_train;
         eval_set := [(X_test, y_test)] |} log.

(** The two training cells, run in notebook order:
<<
    small_model = train_model(500, 3)
    large_model = train_model(5000, 12)
>> *)
Definition training_cells (log : trainer_log)
  : (trainer_call * trainer_call) * trainer_log :=
  let (small_model, log1) := train_model 500 3 log in
  let (large_model, log2) := train_model 5000 12 log1 in
  ((small_model, large_model), log2).

(** Everything in a trainer invocation except the hyperparameter profile
    ([n_estimators], [max_depth]). *)
Definition other_settings (call : trainer_call)
  : (string * bool * bool * string * string * string)
    * (dataset * dataset * list (dataset * dataset)) :=
  let p := params call in
  ((tree_method p, enable_categorical p, use_label_encoder p, predictor p,
    eval_metric p, objective p),
   (fit_X call, fit_y call, eval_set call)).

Definition profile (call : trainer_call) : Z * Z :=
  (n_estimators (params call), max_depth (params call)).

End WithData.

End Training.

(** ** Conversion to NumPy (cell c64db65d) *)

Module Pandas.

Section WithColumns.

(** A pandas column (its dtype and cells) and a NumPy array are left open, and
    so are the pandas operations on single columns and on a frame's value. *)
Context {column ndarray : Type}.
Variable is_category : column -> bool.
(* [s.cat.codes] *)
Variable cat_codes : column -> column.
(* [pd.to_numeric(s, downcast='float')], which raises on cells it cannot parse *)
Variable to_numeric_downcast_float : column -> result column.

(** A DataFrame object: its columns in order, by label. *)
Abbreviation frame := (list (string * column)).

(* [df.values] *)
Variable values_of : frame -> ndarray.

(** DataFrames are mutable objects; variables hold references to them.  The
    heap maps references to the objects' current contents. *)
Abbreviation loc := nat.
Abbreviation heap := (gmap nat frame).

(** Notebook code runs on the heap and may raise; a raised exception keeps the
    changes made so far. *)
Definition M (A : Type) : Type := heap -> result A * heap.

Definition ret {A : Type} (a : A) : M A := fun h => (Ok a, h).

Definition bindM {A B : Type} (m : M A) (k : A -> M B) : M B :=
  fun h =>
    match m h with
    | (Ok a, h') => k a h'
    | (Raise e, h') => (Raise e, h')
    end.

Definition lift {A : Type} (r : result A) : M A := fun h => (r, h).

(** Reading the object behind a reference.  Python has no dangling
    references; the model answers [KeyError] for a location that holds no
    object. *)
Definition deref (df : loc) : M frame :=
  fun h => match h !! df with
           | Some d => (Ok d, h)
           | None => (Raise KeyError, h)
           end.

(** [df.copy()]: a new object with the same columns (a deep copy, the
    default). *)
Definition copy (df : loc) : M loc :=
  bindM (deref df) (fun d h =>
    let df' := fresh (dom h) in (Ok df', <[df' := d]> h)).

Fixpoint frame_get (d : frame) (col : string) : option column :=
  match d with
  | [] => None
  | (label, c) :: d' =>
      if decide (label = col) then Some c else frame_get d' col
  end.

(** Assigning to an existing label replaces the column in place; a new label
    is added at the end. *)
Fixpoint frame_set (d : frame) (col : string) (c : column) : frame :=
  match d with
  | [] => [(col, c)]
  | (label, c0) :: d' =>
      if decide (label = col) then (label, c) :: d'
      else (label, c0) :: frame_set d' col c
  end.

(* [df[col]] *)
Definition getitem (df : loc) (col : string) : M column :=
  bindM (deref df) (fun d =>
    match frame_get d col with
    | Some c => ret c
    | None => lift (Raise KeyError)
    end).

(* [df[col] = c]: mutates the object [df] refers to *)
Definition setitem (df : loc) (col : string) (c : column) : M unit :=
  bindM (deref df) (fun d h => (Ok tt, <[df := frame_set d col c]> h)).

(* [df.columns] *)
Definition columns (df : loc) : M (list string) :=
  bindM (deref df) (fun d => ret (map fst d)).

(* [df.select_dtypes('category').columns] *)
Definition category_columns (df : loc) : M (list string) :=
  bindM (deref df) (fun d =>
    ret (map fst (filter (fun lc => is_category (snd lc) = true) d))).

(* [df.values] *)
Definition values (df : loc) : M ndarray :=
  bindM (deref df) (fun d => ret (values_of d)).

(** [for x in xs: body(x)] *)
Fixpoint for_each {A : Type} (xs : list A) (body : A -> M unit) : M unit :=
  match xs with
  | [] => ret tt
  | x :: xs' => bindM (body x) (fun _ => for_each xs' body)
  end.

(**
<<
    def convert_to_numpy(df):
        df = df.copy()
        cat_cols = df.select_dtypes('category').columns
        for col in cat_cols:
            df[col] = df[col].cat.codes
        for col in df.columns:
            df[col] =  pd.to_numeric(df[col], downcast='float')
        return df.values
>>
    The first line rebinds the parameter [df] to the copy; [convert_copy] is
    the rest of the body, run on that copy. *)
Definition convert_copy (df : loc) : M ndarray :=
  bindM (category_columns df) (fun cat_cols =>
  bindM (for_each cat_cols (fun col =>
           bindM (getitem df col) (fun s =>
           setitem df col (cat_codes s)))) (fun _ =>
  bindM (columns df) (fun cols =>
  bindM (for_each cols (fun col =>
           bindM (getitem df col) (fun s =>
           bindM (lift (to_numeric_downcast_float s)) (fun s' =>
           setitem df col s')))) (fun _ =>
  values df)))).

Definition convert_to_numpy (df : loc) : M ndarray :=
  bindM (copy df) convert_copy.

(** The frame the function computes, as a function of the frame it is given:
    every category column is replaced by its codes, then every column by its
    numeric downcast; labels and order stay, and the first column that cannot
    be converted decides the exception. *)
Definition codes_frame (d : frame) : frame :=
  map (fun lc => (lc.1, if is_category lc.2 then cat_codes lc.2 else lc.2)) d.

Fixpoint numeric_frame (d : frame) : result frame :=
  match d with
  | [] => Ok []
  | (label, s) :: d' =>
      bind (to_numeric_downcast_float s) (fun s' =>
      bind (numeric_frame d') (fun d'' =>
      Ok ((label, s') :: d'')))
  end.

Definition converted_frame (d : frame) : result frame :=
  numeric_frame (codes_frame d).

(** A computation that changes the heap at most at the object [l]. *)
Definition only_writes {A : Type} (l : loc) (m : M A) : Prop :=
  forall (h : heap) (d : frame), h !! l = Some d ->
    exists d' : frame, (m h).2 = <[l := d']> h.

End WithColumns.

End Pandas.

(** ** Data preparation (cell de552313) *)

Module DataPrep.

Section WithFloats.

(** The non-missing float64 values are left open.  [median] is the statistic
    the external [SimpleImputer(strategy='median')] computes from the observed
    values of a column. *)
Context {float64 : Type}.
Variable median : list float64 -> float64.

(** A cuDF column: its dtype and its cells, where [None] is a missing value
    ([<NA>] or NaN).  cuDF has missing values in columns of every dtype. *)
Inductive column : Type :=
  | Float64Column (cells : list (option float64))
  | ObjectColumn (cells : list (option string))
  | Int64Column (cells : list (option Z))
  | BoolColumn (cells : list (option bool)).

Definition missing {A : Type} (cell : option A) : bool :=
  match cell with Some _ => false | None => true end.

(* [column.isna().any()] *)
Definition any_isna (c : column) : bool :=
  match c with
  | Float64Column cells => existsb missing cells
  | ObjectColumn cells => existsb missing cells
  | Int64Column cells => existsb missing cells
  | BoolColumn cells => existsb missing cells
  end.

Definition is_float64 (c : column) : bool :=
  match c with Float64Column _ => true | _ => false end.

Definition is_object (c : column) : bool :=
  match c with ObjectColumn _ => true | _ => false end.

(** A cuDF DataFrame maps its column labels, which are unique, to columns. *)
Abbreviation dataframe := (gmap string column).

(* [data.columns[data.isna().any().to_pandas()]] *)
Definition nan_columns (data : dataframe) : gset string :=
  dom (filter (fun kc => any_isna kc.2 = true) data).

(* [data[labels]] for a collection of labels *)
Definition getitem_columns (data : dataframe) (labels : gset string) : dataframe :=
  filter (fun kc => kc.1 ∈ labels) data.

(* [df.select_dtypes(include='float64')] *)
Definition select_dtypes_float64 (df : dataframe) : dataframe :=
  filter (fun kc => is_float64 kc.2 = true) df.

(* [df.select_dtypes(include='object')] *)
Definition select_dtypes_object (df : dataframe) : dataframe :=
  filter (fun kc => is_object kc.2 = true) df.

(** The observed (non-missing) cells of a column. *)
Definition observed {A : Type} (cells : list (option A)) : list A :=
  omap (fun cell => cell) cells.

(** Filling the missing cells with one value. *)
Definition fill {A : Type} (value : A) (cells : list (option A)) : list (option A) :=
  map (fun cell => Some (default value cell)) cells.

(** What [SimpleImputer(missing_values=nan, strategy='median')] makes of a
    column: every missing cell is replaced by the median of the column's
    observed cells; a column without observed cells has no median and is
    discarded from the result. *)
Definition impute_column (c : column) : option column :=
  match c with
  | Float64Column cells =>
      match observed cells with
      | [] => None
      | obs => Some (Float64Column (fill (median obs) cells))
      end
  | _ => Some c
  end.

(** [imputer.fit_transform(X)]: the imputer validates its input first and
    rejects a frame without columns with a [ValueError] (an array with 0
    features where at least 1 is required).  A frame that has a column has a
    row here, since every column it is given has a missing cell. *)
Definition fit_transform (X : dataframe) : result dataframe :=
  if decide (X = ∅) then Raise ValueError else Ok (omap impute_column X).

(* [df.fillna(value)] on a frame of object columns *)
Definition fillna_column (value : string) (c : column) : column :=
  match c with
  | ObjectColumn cells => ObjectColumn (fill value cells)
  | _ => c
  end.

Definition fillna (value : string) (df : dataframe) : dataframe :=
  fillna_column value <$> df.

(** [data[labels] = value]: the columns of [value] are assigned, in order, to
    the labels; it raises when there are not as many columns as labels.  The
    operands here list the same columns in the same order, so the assignment
    is by label. *)
Definition setitem_columns (data : dataframe) (labels : gset string)
    (value : dataframe) : result dataframe :=
  if decide (size labels = size value) then Ok (value ∪ data)
  else Raise ValueError.

(**
<<
    nan_columns = data.columns[data.isna().any().to_pandas()]
    float_nan_subset = data[nan_columns].select_dtypes(include='float64')

    imputer = SimpleImputer(missing_values=cp.nan, strategy='median')
    data[float_nan_subset.columns] = imputer.fit_transform(float_nan_subset)

    obj_nan_subset = data[nan_columns].select_dtypes(include='object')
    data[obj_nan_subset.columns] = obj_nan_subset.fillna('UNKNOWN')
>> *)
Definition impute_cell (data : dataframe) : result dataframe :=
  let nan_cols := nan_columns data in
  let float_nan_subset := select_dtypes_float64 (getitem_columns data nan_cols) in
  bind (fit_transform float_nan_subset) (fun imputed_subset =>
  bind (setitem_columns data (dom float_nan_subset) imputed_subset) (fun data1 =>
  let obj_nan_subset := select_dtypes_object (getitem_columns data1 nan_cols) in
  setitem_columns data1 (dom obj_nan_subset) (fillna "UNKNOWN" obj_nan_subset))).




Definition float_with_missing (c : column) : bool := is_float64 c && any_isna c.
Definition object_with_missing (c : column) : bool := is_object c && any_isna c.

(** The imputer's result for a column that has a median. *)
Definition imputed (c : column) : column :=
  match c with
  | Float64Column cells => Float64Column (fill (median (observed cells)) cells)
  | _ => c
  end.

(** What the step makes of a column [c] of the table it is given. *)
Definition prepared (c : column) : column :=
  match c with
  | Float64Column cells =>
      if existsb missing cells
      then Float64Column (fill (median (observed cells)) cells) else c
  | ObjectColumn cells =>
      if existsb missing cells then ObjectColumn (fill "UNKNOWN" cells) else c
  | _ => c
  end.


(** Some float64 column has a missing cell, so that the imputer is given a
    column. *)
Definition float_missing_somewhere (data : dataframe) : Prop :=
  exists label c, data !! label = Some c /\ float_with_missing c = true.

(** Every float64 column that has a missing cell has an observed cell too, so
    that it has a median. *)
Definition medians_exist (data : dataframe) : Prop :=
  forall label cells,
    data !! label = Some (Float64Column cells) ->
    existsb missing cells = true -> observed cells <> [].

End WithFloats.

(** A median for integer-valued cells, for examples: the middle element of the
    sorted observed values. *)
Definition middle (obs : list Z) : Z :=
  nth (length obs / 2) (merge_sort Z.le obs) 0.

(** A table with a boolean column that has a missing cell. *)
Definition flagged_table : gmap string (@column Z) :=
  {[ "TransactionAmt" := Float64Column [Some 68; None; Some 59];
     "is_weekend" := BoolColumn [Some true; None; Some false] ]}.

(** A table whose only missing cell is in a column of strings. *)
Definition unnamed_card_table : gmap string (@column Z) :=
  {[ "TransactionAmt" := Float64Column [Some 68; Some 29];
     "card4" := ObjectColumn [Some "visa"; None] ]}.

(** The table the step makes of [flagged_table]: the missing amount has become
    the median. *)
Definition prepared_flagged_table : gmap string (@column Z) :=
  {[ "TransactionAmt" := Float64Column [Some 68; Some 68; Some 59];
     "is_weekend" := BoolColumn [Some true; None; Some false] ]}.

End DataPrep.

(** ** Strings

    Python strings are modelled as Rocq strings.  The characters [A]-[Z] are
    the only ones [lower] changes; no other character lowercases to a letter
    of 'cpu', so comparisons with that word are not affected. *)

Module Str.

(** The double quote and the newline. *)
Definition dq : string := String "034"%char EmptyString.
Definition nl : string := String "010"%char EmptyString.

(* [s.startswith(prefix)] *)
Fixpoint startswith (prefix s : string) : bool :=
  match prefix with
  | EmptyString => true
  | String a prefix' =>
      match s with
      | EmptyString => false
      | String b s' => Ascii.eqb a b && startswith prefix' s'
      end
  end.

(* [s.endswith(c)] for a single character *)
Fixpoint endswith_char (c : ascii) (s : string) : bool :=
  match s with
  | EmptyString => false
  | String a EmptyString => Ascii.eqb a c
  | String _ s' => endswith_char c s'
  end.

(* [needle in s] *)
Fixpoint contains (needle s : string) : bool :=
  startswith needle s
  || match s with
     | EmptyString => false
     | String _ s' => contains needle s'
     end.

(** The character [c] occurs in [s]. *)
Fixpoint occurs (c : ascii) (s : string) : bool :=
  match s with
  | EmptyString => false
  | String a s' => Ascii.eqb a c || occurs c s'
  end.

(** No character of [s1] occurs in [s2]. *)
Fixpoint disjoint_chars (s1 s2 : string) : bool :=
  match s1 with
  | EmptyString => true
  | String a s1' => negb (occurs a s2) && disjoint_chars s1' s2
  end.

Definition lower_char (c : ascii) : ascii :=
  let n := nat_of_ascii c in
  if (65 <=? n)%nat && (n <=? 90)%nat then ascii_of_nat (n + 32) else c.

(* [s.lower()] *)
Fixpoint lower (s : string) : string :=
  match s with
  | EmptyString => EmptyString
  | String c s' => String (lower_char c) (lower s')
  end.

(** The characters of a printed integer. *)
Definition number_chars : string := "-0123456789".

(** The lines of a text joined by newlines. *)
Definition unlines (lines : list string) : string := String.concat nl lines.

End Str.

(** ** Model repository: [serialize_model] and [generate_config]
    (cells b7126325, 2db311a7, 858fd518, 539ab7b9, 0e794668) *)

Module Deploy.

Import Str.

(** [os.path.join(a, b)] of [posixpath]:
<<
    if b.startswith('/'):           path = b
    elif not path or path.endswith('/'):  path += b
    else:                           path += '/' + b
>> *)
Definition os_path_join (a b : string) : string :=
  if startswith "/" b then b
  else if String.eqb a EmptyString || endswith_char "/" a then a +:+ b
  else a +:+ "/" +:+ b.

(** [REPO_PATH = os.path.abspath('model_repository')]: the working directory,
    which the operating system reports as a normalized absolute path, joined
    with the relative name; the result needs no further normalization. *)
Definition REPO_PATH (cwd : string) : string :=
  os_path_join cwd "model_repository".

Definition MAX_MEMORY_BYTES : Z := 60000000.

(**
<<
    bytes_per_sample = (features + num_classes) * 4
    max_batch_size = MAX_MEMORY_BYTES // bytes_per_sample
>> *)
Definition max_batch_size (features num_classes : Z) : result Z :=
  let bytes_per_sample := (features + num_classes) * 4 in
  floordiv MAX_MEMORY_BYTES bytes_per_sample.

Section WithModel.

(** A trained model is opaque; [model.save_model(path)] is a call into the
    external library. *)
Context {model : Type}.

(** What notebook code asks of the operating system and of the model library,
    in order. *)
Inductive os_call : Type :=
  | Makedirs (path : string) (exist_ok : bool)
  | SaveModel (m : model) (path : string)
  | WriteFile (path : string) (text : string).

(**
<<
    def serialize_model(model, model_name):
        model_dir = os.path.join(REPO_PATH, model_name)
        version_dir = os.path.join(model_dir, '1')
        os.makedirs(version_dir, exist_ok=True)
        model_file = os.path.join(version_dir, 'xgboost.json')
        model.save_model(model_file)
        return model_dir
>> *)
Definition serialize_model (cwd : string) (m : model) (model_name : string)
  : string * list os_call :=
  let model_dir := os_path_join (REPO_PATH cwd) model_name in
  let version_dir := os_path_join model_dir "1" in
  let model_file := os_path_join version_dir "xgboost.json" in
  (model_dir, [Makedirs version_dir true; SaveModel m model_file]).

(** The lines of the f-string of [generate_config], with the notebook globals
    [max_batch_size], [features] and [num_classes] as arguments. *)
Definition config_lines (max_batch_size features num_classes : Z)
    (instance_kind storage_type : string) : list string :=
  [ "backend: " +:+ dq +:+ "fil" +:+ dq;
    "max_batch_size: " +:+ pretty max_batch_size;
    "input [                                 ";
    " {  ";
    "    name: " +:+ dq +:+ "input__0" +:+ dq;
    "    data_type: TYPE_FP32";
    "    dims: [ " +:+ pretty features +:+ " ]                    ";
    "  } ";
    "]";
    "output [";
    " {";
    "    name: " +:+ dq +:+ "output__0" +:+ dq;
    "    data_type: TYPE_FP32";
    "    dims: [ " +:+ pretty num_classes +:+ " ]";
    "  }";
    "]";
    "instance_group [{ kind: " +:+ instance_kind +:+ " }]";
    "parameters [";
    "  {";
    "    key: " +:+ dq +:+ "model_type" +:+ dq;
    "    value: { string_value: " +:+ dq +:+ "xgboost_json" +:+ dq +:+ " }";
    "  },";
    "  {";
    "    key: " +:+ dq +:+ "predict_proba" +:+ dq;
    "    value: { string_value: " +:+ dq +:+ "true" +:+ dq +:+ " }";
    "  },";
    "  {";
    "    key: " +:+ dq +:+ "output_class" +:+ dq;
    "    value: { string_value: " +:+ dq +:+ "true" +:+ dq +:+ " }";
    "  },";
    "  {";
    "    key: " +:+ dq +:+ "threshold" +:+ dq;
    "    value: { string_value: " +:+ dq +:+ "0.5" +:+ dq +:+ " }";
    "  },";
    "  {";
    "    key: " +:+ dq +:+ "storage_type" +:+ dq;
    "    value: { string_value: " +:+ dq +:+ storage_type +:+ dq +:+ " }";
    "  }";
    "]";
    EmptyString;
    "dynamic_batching {";
    "  max_queue_delay_microseconds: 100";
    "}" ].

(**
<<
    if deployment_type.lower() == 'cpu':
        instance_kind = 'KIND_CPU'
    else:
        instance_kind = 'KIND_GPU'
>> *)
Definition instance_kind (deployment_type : string) : string :=
  if String.eqb (lower deployment_type) "cpu" then "KIND_CPU" else "KIND_GPU".

Definition config_text (max_batch_size features num_classes : Z)
    (deployment_type storage_type : string) : string :=
  unlines (config_lines max_batch_size features num_classes
             (instance_kind deployment_type) storage_type).

(**
<<
    def generate_config(model_dir, deployment_type='gpu', storage_type='AUTO'):
        ...
        config_path = os.path.join(model_dir, 'config.pbtxt')
        with open(config_path, 'w') as file_:
            file_.write(config_text)
        return config_path
>> *)
Definition generate_config (max_batch_size features num_classes : Z)
    (model_dir deployment_type storage_type : string)
  : string * list os_call :=
  let config_path := os_path_join model_dir "config.pbtxt" in
  (config_path,
   [WriteFile config_path
      (config_text max_batch_size features num_classes
         deployment_type storage_type)]).

(** The cells that lay out the repository (b7126325, bf33ec4d, 43016177), in
    notebook order:
<<
    os.makedirs(REPO_PATH, exist_ok=True)
    small_model_dir = serialize_model(small_model, 'small_model')
    small_model_cpu_dir = serialize_model(small_model, 'small_model-cpu')
    large_model_dir = serialize_model(large_model, 'large_model')
    large_model_cpu_dir = serialize_model(large_model, 'large_model-cpu')
    generate_config(small_model_dir, deployment_type='gpu')
    generate_config(small_model_cpu_dir, deployment_type='cpu')
    generate_config(large_model_dir, deployment_type='gpu')
    generate_config(large_model_cpu_dir, deployment_type='cpu')
>>
    The storage type is the default, 'AUTO'. *)
Definition deployment_cells (cwd : string) (small_model large_model : model)
    (max_batch_size features num_classes : Z) : list os_call :=
  let '(small_model_dir, calls1) := serialize_model cwd small_model "small_model" in
  let '(small_model_cpu_dir, calls2) := serialize_model cwd small_model "small_model-cpu" in
  let '(large_model_dir, calls3) := serialize_model cwd large_model "large_model" in
  let '(large_model_cpu_dir, calls4) := serialize_model cwd large_model "large_model-cpu" in
  let config dir deployment_type :=
    (generate_config max_batch_size features num_classes dir deployment_type "AUTO").2 in
  [Makedirs (REPO_PATH cwd) true]
  ++ calls1 ++ calls2 ++ calls3 ++ calls4
  ++ config small_model_dir "gpu" ++ config small_model_cpu_dir "cpu"
  ++ config large_model_dir "gpu" ++ config large_model_cpu_dir "cpu".

(** The file a call writes, if it writes one. *)
Definition written_file (call : os_call) : option string :=
  match call with
  | Makedirs _ _ => None
  | SaveModel _ path => Some path
  | WriteFile path _ => Some path
  end.

End WithModel.



(** The separator [os.path.join] puts after a directory name: none after an
    empty name or a name that ends in a slash. *)
Definition separator_after (dir : string) : string :=
  if String.eqb dir EmptyString || endswith_char "/" dir then EmptyString else "/".

(** The fragments of a configuration the properties speak about. *)
Definition instance_group_of (kind : string) : string :=
  "instance_group [{ kind: " +:+ kind +:+ " }]".

(** The line of the maximum batch size with the lines around it, so that the
    line is there in full. *)
Definition max_batch_size_block (max_batch_size : Z) : list string :=
  [ "backend: " +:+ dq +:+ "fil" +:+ dq;
    "max_batch_size: " +:+ pretty max_batch_size;
    "input [                                 " ].

Definition input_block (features : Z) : list string :=
  [ "    name: " +:+ dq +:+ "input__0" +:+ dq;
    "    data_type: TYPE_FP32";
    "    dims: [ " +:+ pretty features +:+ " ]                    " ].

Definition output_block (num_classes : Z) : list string :=
  [ "    name: " +:+ dq +:+ "output__0" +:+ dq;
    "    data_type: TYPE_FP32";
    "    dims: [ " +:+ pretty num_classes +:+ " ]" ].

Definition model_type_block : list string :=
  [ "    key: " +:+ dq +:+ "model_type" +:+ dq;
    "    value: { string_value: " +:+ dq +:+ "xgboost_json" +:+ dq +:+ " }" ].

Definition dynamic_batching_block : list string :=
  [ "dynamic_batching {";
    "  max_queue_delay_microseconds: 100";
    "}" ].

(** A storage type that closes the parameter list, adds an instance group and
    opens a parameter again, so that the text stays well formed. *)
Definition injected_storage_type : string :=
  unlines
    [ "AUTO" +:+ dq +:+ " }";
      "  }";
      "]";
      "instance_group [{ kind: KIND_CPU }]";
      "parameters [";
      "  {";
      "    key: " +:+ dq +:+ "x" +:+ dq;
      "    value: { string_value: " +:+ dq +:+ "y" ].

End Deploy.

(** ** The build stages: the cleaning step of [build-prep] (build file, lines
    55-66) and the final stage (lines 172-187) *)

Module Build.

Import Str.

(** A path is the list of its components below the root. *)
Abbreviation path := (list string).

Inductive node : Type :=
  | Dir
  | File (content : string).

(** An image: its files and directories by path (the root directory itself
    is not listed) and its environment. *)
Record image : Type := {
  fs : gmap path node;
  env : gmap string string
}.

(** What steps of a stage come to: the image they build, a build that stops
    with an error, or a case that is left out of this model (a backend name
    the shell or the builder does not take literally, a copy that meets an
    entry of another kind): nothing is said about what the builder does
    there. *)
Inductive outcome (A : Type) : Type :=
  | Built (x : A)
  | Fails
  | Unmodelled.

Arguments Built {A} x.
Arguments Fails {A}.
Arguments Unmodelled {A}.

(** Letters, digits, [_], [-] and [.]: characters that the shell, unquoted,
    and the builder take as they are. *)
Definition plain_char (c : ascii) : bool :=
  let n := nat_of_ascii c in
  ((48 <=? n)%nat && (n <=? 57)%nat)
  || ((65 <=? n)%nat && (n <=? 90)%nat)
  || ((97 <=? n)%nat && (n <=? 122)%nat)
  || Ascii.eqb c "_" || Ascii.eqb c "-" || Ascii.eqb c ".".

Fixpoint all_chars (p : ascii -> bool) (s : string) : bool :=
  match s with
  | EmptyString => true
  | String c s' => p c && all_chars p s'
  end.

(** The backend names of the model: the empty name and the names of one
    directory.  A name with a blank or a pattern character is split or
    expanded by the shell where [${BACKEND_NAME}] is written without quotes,
    and [.], [..] and names with [/] are resolved as paths; the stages below
    leave such names out. *)
Definition plain_name (s : string) : bool :=
  all_chars plain_char s && negb (String.eqb s ".") && negb (String.eqb s "..").

(** [/opt/tritonserver/backends/${BACKEND_NAME}] for a plain name; for the
    empty name it is the directory of all backends. *)
Definition backend_dir (BACKEND_NAME : string) : path :=
  ["opt"; "tritonserver"; "backends"]
  ++ (if String.eqb BACKEND_NAME EmptyString then [] else [BACKEND_NAME]).

(** What [$BACKEND_NAME] stands for after
<<
    ARG BACKEND_NAME          (or ARG BACKEND_NAME=default)
    ENV BACKEND_NAME=$BACKEND_NAME
>>
    [inherited] is the variable in the environment of the image the stage
    starts from and [arg_value] the value of the build argument: what is
    passed with [--build-arg], else the default if the stage gives one.
    Without an inherited variable it is the argument's value, and empty when
    there is none; an inherited variable stays when the argument has no value
    or the same value.  An inherited variable that meets an argument with
    another value is left out of the model. *)
Definition backend_name (inherited arg_value : option string) : option string :=
  match inherited, arg_value with
  | None, None => Some EmptyString
  | None, Some v => Some v
  | Some e, None => Some e
  | Some e, Some v => if String.eqb e v then Some e else None
  end.

(** [ARG BACKEND_NAME] has no default in the final stage. *)
Definition final_name (build_args : gmap string string) (base : image)
  : option string :=
  backend_name (env base !! "BACKEND_NAME") (build_args !! "BACKEND_NAME").

(** [ARG BACKEND_NAME=fil] in the stage [build-prep]. *)
Definition build_prep_name (build_args : gmap string string) (start : image)
  : option string :=
  backend_name (env start !! "BACKEND_NAME")
    (Some (default "fil" (build_args !! "BACKEND_NAME"))).

(** [RUN mkdir p] for a path directly below the root: it fails when the path
    exists. *)
Definition run_mkdir (p : path) (files : gmap path node) : option (gmap path node) :=
  match files !! p with
  | Some _ => None
  | None => Some (<[p := Dir]> files)
  end.

(** The paths [dir/*] expands to, with everything below them: the shell's [*]
    does not match names that start with a dot. *)
Definition matches_glob (dir q : path) : bool :=
  match drop (length dir) q with
  | name :: _ => bool_decide (dir `prefix_of` q) && negb (startswith "." name)
  | [] => false
  end.

(** [RUN if [ -d dir ]; then rm -rf dir/*; fi] *)
Definition run_rm_contents (dir : path) (files : gmap path node) : gmap path node :=
  match files !! dir with
  | Some Dir => filter (fun qn => matches_glob dir qn.1 = false) files
  | _ => files
  end.

(** The directories above a path, the root excluded. *)
Definition parents (p : path) : list path :=
  map (fun k => take k p) (seq 1 (length p - 1)).

Definition is_file (files : gmap path node) (p : path) : bool :=
  match files !! p with
  | Some (File _) => true
  | _ => false
  end.

Definition is_dir (files : gmap path node) (p : path) : bool :=
  match files !! p with
  | Some Dir => true
  | _ => false
  end.

(** What [COPY --from=stage dir dir] takes from the stage: of a directory, the
    directory with everything below it; of a regular file, the file. *)
Definition copied_entries (stage : gmap path node) (dir : path) : gmap path node :=
  match stage !! dir with
  | Some Dir => filter (fun qn => dir `prefix_of` qn.1) stage
  | Some (File content) => {[ dir := File content ]}
  | None => ∅
  end.

Definition same_kind (x y : node) : bool :=
  match x, y with
  | Dir, Dir => true
  | File _, File _ => true
  | _, _ => false
  end.

(** No copied entry meets a directory where it is a file, or a file where it
    is a directory. *)
Definition compatible (copied files : gmap path node) : bool :=
  bool_decide
    (map_Forall (fun q x => from_option (same_kind x) true (files !! q) = true)
       copied).

(** [COPY --from=stage dir dir] with [dir] the backend directory of a plain
    name.  The build fails when the stage has nothing at the path, and when a
    regular file is where a directory above the destination has to be.
    Otherwise missing directories above the destination are created; a
    directory of the stage is copied with everything below it, into the
    directory that is there or a new one, files of the stage replacing the
    files that are there; a regular file of the stage is written at the
    destination.  Left out of the model: a copied entry that meets an entry
    of the other kind, and a regular file copied for the empty name, where
    the destination is written with a slash at its end. *)
Definition copy_from (stage : gmap path node) (BACKEND_NAME : string)
    (files : gmap path node) : outcome (gmap path node) :=
  let dir := backend_dir BACKEND_NAME in
  match stage !! dir with
  | None => Fails
  | Some _ =>
      if existsb (is_file files) (parents dir) then Fails
      else if is_file stage dir && String.eqb BACKEND_NAME EmptyString
      then Unmodelled
      else if compatible (copied_entries stage dir) files
      then Built (copied_entries stage dir
                  ∪ (files ∪ list_to_map (map (fun a => (a, Dir)) (parents dir))))
      else Unmodelled
  end.

(**
<<
    FROM ${BASE_IMAGE} as final
    ARG BACKEND_NAME
    ENV BACKEND_NAME=$BACKEND_NAME
    RUN mkdir /models
    RUN if [ -d /opt/tritonserver/backends/${BACKEND_NAME} ]; \
        then rm -rf /opt/tritonserver/backends/${BACKEND_NAME}/*; fi
    COPY --from=build-stage \
      /opt/tritonserver/backends/$BACKEND_NAME \
      /opt/tritonserver/backends/$BACKEND_NAME
>>
    [base] is the image [${BASE_IMAGE}] names and [build_stage] the image the
    stage [build-stage] ends with.  [RUN mkdir /models] fails on a base image
    that has [/models], whatever the name is. *)
Definition final_stage (build_args : gmap string string)
    (base build_stage : image) : outcome image :=
  match run_mkdir ["models"] (fs base) with
  | None => Fails
  | Some files1 =>
      match final_name build_args base with
      | None => Unmodelled
      | Some BACKEND_NAME =>
          if plain_name BACKEND_NAME then
            let env1 := <["BACKEND_NAME" := BACKEND_NAME]> (env base) in
            let files2 := run_rm_contents (backend_dir BACKEND_NAME) files1 in
            match copy_from (fs build_stage) BACKEND_NAME files2 with
            | Built files3 => Built {| fs := files3; env := env1 |}
            | Fails => Fails
            | Unmodelled => Unmodelled
            end
          else Unmodelled
      end
  end.

(** In a file system every entry lies in directories. *)
Definition well_formed (files : gmap path node) : Prop :=
  map_Forall (fun q _ => forallb (is_dir files) (parents q) = true) files.

(** Nothing hidden lies directly in a directory: the shell pattern [dir/*]
    reaches everything below it. *)
Definition no_hidden_entries (dir : path) (files : gmap path node) : Prop :=
  forall (name : string) (rest : path),
    startswith "." name = true -> files !! (dir ++ name :: rest) = None.

(** [RUN mkdir p]: it fails when the path exists or the directory above it
    does not. *)
Definition mkdir (p : path) (files : gmap path node) : option (gmap path node) :=
  match p, files !! p with
  | [], _ => None
  | _, Some _ => None
  | _, None =>
      let above := take (length p - 1) p in
      if bool_decide (above = []) || is_dir files above
      then Some (<[p := Dir]> files) else None
  end.

(** The steps of the stage [build-prep] that name the backend and remove
    stale build artifacts (lines 55-66); [start] is the image the steps
    before them leave:
<<
    ARG BACKEND_NAME=fil
    ENV BACKEND_NAME=$BACKEND_NAME
    WORKDIR /rapids_triton/build
    RUN if [ -d /opt/tritonserver/backends/${BACKEND_NAME} ]; \
        then rm -rf /opt/tritonserver/backends/${BACKEND_NAME}/*; \
        else mkdir /opt/tritonserver/backends/${BACKEND_NAME}; fi
>>
    The working directory exists by then ([RUN mkdir -p /rapids_triton/build]
    is the first step of the stage) and the paths of the step are absolute. *)
Definition build_prep_clean (build_args : gmap string string)
    (start : image) : outcome image :=
  match build_prep_name build_args start with
  | None => Unmodelled
  | Some BACKEND_NAME =>
      if plain_name BACKEND_NAME then
        let env1 := <["BACKEND_NAME" := BACKEND_NAME]> (env start) in
        let dir := backend_dir BACKEND_NAME in
        if is_dir (fs start) dir
        then Built {| fs := run_rm_contents dir (fs start); env := env1 |}
        else
          match mkdir dir (fs start) with
          | Some files => Built {| fs := files; env := env1 |}
          | None => Fails
          end
      else Unmodelled
  end.

(** A base image with an installed backend, the same with a hidden file in the
    backend directory, and a build stage that has the sources, the build tree
    and the new backend. *)
Definition example_base : image := {|
  fs := list_to_map
    [ (["opt"], Dir);
      (["opt"; "tritonserver"], Dir);
      (["opt"; "tritonserver"; "backends"], Dir);
      (["opt"; "tritonserver"; "backends"; "fil"], Dir);
      (["opt"; "tritonserver"; "backends"; "fil"; "libtriton_fil.so"], File "old") ];
  env := {[ "PATH" := "/opt/tritonserver/bin:/usr/bin" ]}
|}.

Definition example_stamped_base : image := {|
  fs := <[["opt"; "tritonserver"; "backends"; "fil"; ".stamp"] := File "21.12"]>
          (fs example_base);
  env := env example_base
|}.

Definition example_build_stage : image := {|
  fs := list_to_map
    [ (["opt"], Dir);
      (["opt"; "tritonserver"], Dir);
      (["opt"; "tritonserver"; "backends"], Dir);
      (["opt"; "tritonserver"; "backends"; "fil"], Dir);
      (["opt"; "tritonserver"; "backends"; "fil"; "libtriton_fil.so"], File "new");
      (["root"], Dir);
      (["root"; "miniconda3"], Dir);
      (["rapids_triton"], Dir);
      (["rapids_triton"; "src"], Dir);
      (["rapids_triton"; "build"], Dir) ];
  env := {[ "PATH" := "/root/miniconda3/bin:/opt/tritonserver/bin:/usr/bin";
            "BACKEND_NAME" := "fil" ]}
|}.

Definition example_args : gmap string string := {[ "BACKEND_NAME" := "fil" ]}.

(** An image cut down to a directory and what is below it. *)
Definition only_below (dir : path) (img : image) : image := {|
  fs := filter (fun qn => dir `prefix_of` qn.1) (fs img);
  env := ∅
|}.

Definition built_or {A : Type} (x : A) (r : outcome A) : A :=
  match r with
  | Built y => y
  | _ => x
  end.

(** The final images of the examples, with and without BACKEND_NAME passed,
    and the example base image after the cleaning step of [build-prep]. *)
Definition example_final : image :=
  built_or example_base (final_stage example_args example_base example_build_stage).

Definition example_final_stamped : image :=
  built_or example_base
    (final_stage example_args example_stamped_base example_build_stage).

Definition example_final_unnamed : image :=
  built_or example_base (final_stage ∅ example_base example_build_stage).

Definition example_cleaned : image :=
  built_or example_base (build_prep_clean ∅ example_base).

End Build.

(** ** Inference in batches (cells 431cdd4f, 1c19d85c) *)

Module BatchedInference.

Section WithPredictor.

(** Rows of the test data and rows of the server's answer. *)
Context {row out : Type}.

(** [triton_predict(model_name, chunk)] for one model: a request to the
    server, which answers with an array or fails. *)
Variable triton_predict : list row -> result (list out).

(** [np.concatenate(arrays)] along axis 0; it raises for an empty list. *)
Definition np_concatenate (arrays : list (list out)) : result (list out) :=
  match arrays with
  | [] => Raise ValueError
  | _ => Ok (concat arrays)
  end.

(** [[triton_predict(model_name, chunk) for chunk in chunks]]: the requests
    are sent in order, and the first one that fails ends the comprehension. *)
Fixpoint predict_each (chunks : list (list row)) : result (list (list out)) :=
  match chunks with
  | [] => Ok []
  | chunk :: chunks' =>
      bind (triton_predict chunk) (fun answer =>
      bind (predict_each chunks') (fun answers =>
      Ok (answer :: answers)))
  end.

(**
<<
    np.concatenate([triton_predict(model_name, chunk)
                    for chunk in create_batches(np_data)])
>> *)
Definition predict_in_batches (max_batch_size : Z) (np_data : list row)
  : result (list out) :=
  bind (Batching.create_batches max_batch_size np_data) (fun chunks =>
  bind (predict_each chunks) np_concatenate).

End WithPredictor.

End BatchedInference.

(** * Properties *)

(** ** Batching *)

Section BatchingFacts.

Import Batching.
Context {row : Type}.
Implicit Types (ary arr : list row) (sizes : list Z).

Lemma slice_length_le ary st en :
  0 <= st -> (length (slice ary st en) <= Z.to_nat (en - st))%nat.
Proof.
  intros Hst. unfold slice. rewrite length_drop, length_take. lia.
Qed.

Lemma slice_app ary a b c :
  0 <= a <= b -> b <= c ->
  slice ary a b ++ slice ary b c = slice ary a c.
Proof.
  intros [Ha Hab] Hbc. unfold slice.
  assert (Htake : take (Z.to_nat c) ary
                  = take (Z.to_nat b) ary ++ drop (Z.to_nat b) (take (Z.to_nat c) ary)).
  { rewrite <- (take_drop (Z.to_nat b) (take (Z.to_nat c) ary)) at 1.
    rewrite take_take. f_equal. f_equal. lia. }
  transitivity (drop (Z.to_nat a)
                  (take (Z.to_nat b) ary ++ drop (Z.to_nat b) (take (Z.to_nat c) ary)));
    [|rewrite <- Htake; reflexivity].
  rewrite drop_app. f_equal.
  destruct (decide (Z.to_nat a <= length (take (Z.to_nat b) ary))%nat) as [Hle|Hgt].
  - replace (Z.to_nat a - length (take (Z.to_nat b) ary))%nat with 0%nat by lia.
    reflexivity.
  - rewrite length_take in Hgt.
    rewrite (drop_ge _ (Z.to_nat b)) by (rewrite length_take; lia).
    symmetry. apply drop_nil.
Qed.

Lemma slice_all ary : slice ary 0 (Z.of_nat (length ary)) = ary.
Proof.
  unfold slice. rewrite Nat2Z.id, take_ge by lia. reflexivity.
Qed.

(** What [array_split] builds by index is the recursion over the sizes. *)
Lemma sub_arys_by_index ary off sizes :
  map (fun i : nat =>
         slice ary (nth i (off :: cumsum_from off sizes) 0)
                   (nth (S i) (off :: cumsum_from off sizes) 0))
      (seq 0 (length sizes))
  = chunks_from ary off sizes.
Proof.
  revert off. induction sizes as [|s sizes IH]; intros off; [reflexivity|].
  cbn [length seq map chunks_from cumsum_from].
  f_equal. rewrite <- seq_shift, map_map.
  rewrite <- (IH (off + s)). apply map_ext. intros i. reflexivity.
Qed.

Lemma concat_chunks_from ary off sizes :
  0 <= off -> Forall (fun s => 0 <= s) sizes ->
  concat (chunks_from ary off sizes) = slice ary off (off + foldr Z.add 0 sizes).
Proof.
  intros Hoff Hs. revert off Hoff.
  induction Hs as [|s sizes Hs0 Hs IH]; intros off Hoff; cbn [chunks_from concat foldr].
  - rewrite Z.add_0_r. unfold slice.
    rewrite drop_ge by (rewrite length_take; lia). reflexivity.
  - rewrite IH by lia.
    assert (Hsum : 0 <= foldr Z.add 0 sizes).
    { clear IH. induction Hs; cbn; lia. }
    rewrite slice_app by lia. f_equal. lia.
Qed.

Lemma chunks_from_bounded ary off sizes (bound : Z) :
  0 <= off -> Forall (fun s => 0 <= s <= bound) sizes ->
  Forall (fun chunk => Z.of_nat (length chunk) <= bound) (chunks_from ary off sizes).
Proof.
  intros Hoff Hs. revert off Hoff.
  induction Hs as [|s sizes Hs0 Hs IH]; intros off Hoff; cbn [chunks_from].
  - constructor.
  - constructor.
    + pose proof (slice_length_le ary off (off + s) Hoff). lia.
    + apply IH. lia.
Qed.

Lemma length_chunks_from ary off sizes :
  length (chunks_from ary off sizes) = length sizes.
Proof.
  revert off. induction sizes as [|s sizes IH]; intros off; cbn; [reflexivity|].
  f_equal. apply IH.
Qed.

Lemma sum_replicate (k : nat) (x : Z) :
  foldr Z.add 0 (replicate k x) = Z.of_nat k * x.
Proof. induction k as [|k IH]; cbn [replicate foldr]; [lia|]. rewrite IH. lia. Qed.

Lemma sum_app (xs ys : list Z) :
  foldr Z.add 0 (xs ++ ys) = foldr Z.add 0 xs + foldr Z.add 0 ys.
Proof. induction xs as [|x xs IH]; cbn [app foldr]; [lia|]. rewrite IH. lia. Qed.

Lemma part_sizes_sum Ntotal Nsections :
  0 < Nsections -> foldr Z.add 0 (part_sizes Ntotal Nsections) = Ntotal.
Proof.
  intros Hk. unfold part_sizes.
  pose proof (Z.mod_pos_bound Ntotal Nsections Hk) as Hm.
  rewrite sum_app, !sum_replicate, !Z2Nat.id by lia.
  rewrite (Z.div_mod Ntotal Nsections) at 5 by lia. lia.
Qed.

Lemma part_sizes_length Ntotal Nsections :
  0 < Nsections -> length (part_sizes Ntotal Nsections) = Z.to_nat Nsections.
Proof.
  intros Hk. unfold part_sizes.
  pose proof (Z.mod_pos_bound Ntotal Nsections Hk) as Hm.
  rewrite length_app, !length_replicate. lia.
Qed.

Lemma array_split_chunks ary Nsections :
  0 < Nsections ->
  array_split ary Nsections
  = Ok (chunks_from ary 0 (part_sizes (Z.of_nat (length ary)) Nsections)).
Proof.
  intros Hk. unfold array_split.
  destruct (decide (Nsections <= 0)) as [Hle|_]; [lia|].
  f_equal. rewrite <- sub_arys_by_index, part_sizes_length by exact Hk.
  reflexivity.
Qed.

Lemma chunk_count_ok max_batch_size n :
  max_batch_size <> 0 ->
  chunk_count max_batch_size n
  = Ok (n / max_batch_size
        + (if negb (n mod max_batch_size =? 0) || (n <? max_batch_size)
           then 1 else 0)).
Proof.
  intros Hm. unfold chunk_count, floordiv, pymod.
  destruct (decide (max_batch_size = 0)); [contradiction|]. reflexivity.
Qed.

(** The computed number of chunks covers the rows: [chunks] batches of
    [max_batch_size] rows hold at least [n] rows. *)
Lemma chunk_count_covers max_batch_size n :
  0 < max_batch_size -> 0 <= n ->
  n <= (n / max_batch_size
        + (if negb (n mod max_batch_size =? 0) || (n <? max_batch_size)
           then 1 else 0)) * max_batch_size.
Proof.
  intros Hm Hn.
  pose proof (Z.div_mod n max_batch_size ltac:(lia)) as Hdm.
  pose proof (Z.mod_pos_bound n max_batch_size Hm) as Hr.
  destruct (Z.eqb_spec (n mod max_batch_size) 0) as [Hz|Hnz]; cbn [negb orb].
  - destruct (n <? max_batch_size); nia.
  - nia.
Qed.

Lemma part_sizes_bounded Ntotal Nsections bound :
  0 < Nsections -> 0 <= Ntotal -> Ntotal <= Nsections * bound ->
  Forall (fun s => 0 <= s <= bound) (part_sizes Ntotal Nsections).
Proof.
  intros Hk Hn Hcover. unfold part_sizes.
  pose proof (Z.div_mod Ntotal Nsections ltac:(lia)) as Hdm.
  pose proof (Z.mod_pos_bound Ntotal Nsections Hk) as Hr.
  assert (Hq : 0 <= Ntotal / Nsections) by (apply Z.div_pos; lia).
  apply Forall_app. split.
  - destruct (decide (Ntotal mod Nsections = 0)) as [Hz|Hnz].
    + rewrite Hz. constructor.
    + apply Forall_replicate. nia.
  - apply Forall_replicate. nia.
Qed.

(** [create_batches] in closed form: the recursion over the part sizes for
    [max(GPU_COUNT, chunks)] parts. *)
Lemma create_batches_chunks max_batch_size arr :
  max_batch_size <> 0 ->
  let n := Z.of_nat (length arr) in
  let chunks := n / max_batch_size
                + (if negb (n mod max_batch_size =? 0) || (n <? max_batch_size)
                   then 1 else 0) in
  create_batches max_batch_size arr
  = Ok (chunks_from arr 0 (part_sizes n (Z.max GPU_COUNT chunks))).
Proof.
  intros Hm n chunks. unfold create_batches.
  rewrite chunk_count_ok by exact Hm. cbn [bind].
  apply array_split_chunks. unfold GPU_COUNT. lia.
Qed.

(** C8, amended: for a [max_batch_size] other than 0, [create_batches arr]
    returns, the chunks concatenated in order are exactly [arr], row for row,
    and there are at least [GPU_COUNT] (8) chunks.  (It holds for an array
    without rows too.) *)
Theorem create_batches_concat (max_batch_size : Z) (arr : list row) :
  max_batch_size <> 0 ->
  exists batches : list (list row),
    create_batches max_batch_size arr = Ok batches
    /\ concat batches = arr
    /\ GPU_COUNT <= Z.of_nat (length batches).
Proof.
  intros Hm. eexists. split; [apply create_batches_chunks; exact Hm|].
  set (n := Z.of_nat (length arr)).
  set (k := Z.max GPU_COUNT _).
  assert (Hk : 0 < k) by (unfold k, GPU_COUNT; lia).
  split.
  - rewrite concat_chunks_from.
    + rewrite part_sizes_sum by exact Hk. apply slice_all.
    + lia.
    + pose proof (Z.mod_pos_bound n k Hk).
      assert (0 <= n / k) by (apply Z.div_pos; lia).
      unfold part_sizes. apply Forall_app.
      split; apply Forall_replicate; lia.
  - rewrite length_chunks_from, part_sizes_length by exact Hk.
    unfold k, GPU_COUNT. lia.
Qed.

(** C9: for [max_batch_size >= 1] and an array of [n >= 1] rows,
    [create_batches] returns [max(GPU_COUNT, chunks)] chunks, where [chunks] is
    [n // max_batch_size] plus one exactly when [n] is not a multiple of
    [max_batch_size] or [n < max_batch_size], and every chunk has at most
    [max_batch_size] rows. *)
Theorem create_batches_chunk_size (max_batch_size : Z) (arr : list row) :
  1 <= max_batch_size -> (1 <= length arr)%nat ->
  let n := Z.of_nat (length arr) in
  let chunks := n / max_batch_size
                + (if negb (n mod max_batch_size =? 0) || (n <? max_batch_size)
                   then 1 else 0) in
  chunk_count max_batch_size n = Ok chunks
  /\ exists batches : list (list row),
       create_batches max_batch_size arr = Ok batches
       /\ Z.of_nat (length batches) = Z.max GPU_COUNT chunks
       /\ Forall (fun chunk => Z.of_nat (length chunk) <= max_batch_size) batches.
Proof.
  intros Hm Hrows n chunks.
  split; [apply chunk_count_ok; lia|].
  eexists. split; [apply create_batches_chunks; lia|].
  fold n. fold chunks.
  assert (Hcover : n <= chunks * max_batch_size)
    by (apply chunk_count_covers; lia).
  assert (Hk : 0 < Z.max GPU_COUNT chunks) by (unfold GPU_COUNT; lia).
  split.
  - rewrite length_chunks_from, part_sizes_length by exact Hk. lia.
  - apply chunks_from_bounded; [lia|].
    apply part_sizes_bounded; [exact Hk|lia|]. nia.
Qed.

End BatchingFacts.

Lemma create_batches_concat_witness :
  exists batches : list (list nat),
    Batching.create_batches 2 [10; 20; 30]%nat = Ok batches
    /\ concat batches = [10; 20; 30]%nat
    /\ Batching.GPU_COUNT <= Z.of_nat (length batches).
Proof. apply (create_batches_concat 2 [10; 20; 30]%nat). lia. Defined.

(** C8 as stated fails when the notebook global [max_batch_size] is 0, which
    the cell that computes it yields once a sample needs more than
    [MAX_MEMORY_BYTES]: [create_batches] then raises and returns no chunks. *)
Lemma create_batches_concat_zero_batch_size :
  Deploy.max_batch_size 14999999 2 = Ok 0
  /\ Batching.create_batches 0 [10; 20; 30]%nat = Raise ZeroDivisionError
  /\ ~ exists batches : list (list nat),
        Batching.create_batches 0 [10; 20; 30]%nat = Ok batches.
Proof.
  split; [reflexivity|]. split; [reflexivity|].
  intros [batches Hbatches]. discriminate Hbatches.
Qed.

Lemma create_batches_chunk_size_witness :
  Batching.chunk_count 2 3 = Ok 2
  /\ exists batches : list (list nat),
       Batching.create_batches 2 [10; 20; 30]%nat = Ok batches
       /\ Z.of_nat (length batches) = 8
       /\ Forall (fun chunk => Z.of_nat (length chunk) <= 2) batches.
Proof.
  apply (create_batches_chunk_size 2 [10; 20; 30]%nat); [lia | cbn; lia].
Defined.

(** ** Waiting for the server *)

Section ReadinessFacts.

Import Readiness.

Lemma wait_loop_more_fuel w fuel fuel' i r :
  wait_loop w fuel i = Some r -> (fuel <= fuel')%nat ->
  wait_loop w fuel' i = Some r.
Proof.
  revert fuel' i. induction fuel as [|fuel IH]; intros fuel' i Hr Hle; [discriminate|].
  destruct fuel' as [|fuel']; [lia|].
  cbn [wait_loop] in *. destruct (loop_body w i); try exact Hr.
  apply IH; [exact Hr | lia].
Qed.

(** Once the timeout has elapsed, an iteration whose probe answers (whatever
    the answer) leaves the loop. *)
Lemma loop_body_after_timeout w i :
  (TIMEOUT < elapsed w i)%Q ->
  is_server_ready w i <> Raise InferenceServerException ->
  loop_body w i <> Continue.
Proof.
  intros Hlate Hprobe. unfold loop_body, loop_condition.
  destruct (is_server_ready w i) as [[|]|e]; cbn [bind].
  - discriminate.
  - destruct (Qle_bool (elapsed w i) TIMEOUT) eqn:Hle; cbn [negb]; [|discriminate].
    apply Qle_bool_iff in Hle. exfalso. apply (Qlt_not_le _ _ Hlate Hle).
  - destruct e; try discriminate. contradiction.
Qed.

(** The loop is left by the first iteration that does not continue. *)
Lemma wait_loop_stops w n i :
  loop_body w (i + n) <> Continue ->
  exists r, wait_loop w (S n) i = Some r.
Proof.
  revert i. induction n as [|n IH]; intros i Hstop.
  - rewrite Nat.add_0_r in Hstop. cbn [wait_loop].
    destruct (loop_body w i); [eauto | contradiction | eauto].
  - cbn [wait_loop]. destruct (loop_body w i) eqn:Hb; [eauto | | eauto].
    apply IH. replace (S i + n)%nat with (i + S n)%nat by lia. exact Hstop.
Qed.

(** When the probe of some iteration after the timeout answers, the loop
    terminates. *)
Lemma wait_loop_terminates_if_probe_answers w n :
  (TIMEOUT < elapsed w n)%Q ->
  is_server_ready w n <> Raise InferenceServerException ->
  exists r, wait_loop w (S n) 0 = Some r.
Proof.
  intros Hlate Hprobe. apply wait_loop_stops. cbn [Nat.add].
  apply loop_body_after_timeout; assumption.
Qed.

(** X11: With a second of sleep per iteration the timeout has elapsed in iteration
    61: when the probe of that iteration answers, the loop has ended after 62
    iterations. *)
Lemma wait_loop_terminates_within_timeout w :
  sleeps_one_second w ->
  is_server_ready w 61 <> Raise InferenceServerException ->
  exists r, wait_loop w 62 0 = Some r.
Proof.
  intros Hsleep Hprobe. apply wait_loop_terminates_if_probe_answers; [|exact Hprobe].
  eapply Qlt_le_trans; [|apply Hsleep]. reflexivity.
Qed.

(** Every iteration against the unreachable server continues: the probe
    raises before the clock is compared with [TIMEOUT]. *)
Lemma unreachable_server_continues i :
  loop_body unreachable_server i = Continue.
Proof. reflexivity. Qed.

(** C1 on the unreachable server: the loop is still running after any number
    of iterations, although the clock passes [TIMEOUT] in iteration 61. *)
Theorem wait_loop_unreachable_server_never_exits :
  sleeps_one_second unreachable_server
  /\ (TIMEOUT < elapsed unreachable_server 61)%Q
  /\ forall fuel i : nat, wait_loop unreachable_server fuel i = None.
Proof.
  split; [|split].
  - intros i. cbn. apply Qle_refl.
  - reflexivity.
  - intros fuel. induction fuel as [|fuel IH]; intros i; [reflexivity|].
    cbn [wait_loop]. rewrite unreachable_server_continues. apply IH.
Qed.

End ReadinessFacts.

(** ** Training *)

Section TrainingFacts.

Import Training.
Context {dataset : Type}.
Variables (X_train y_train X_test y_test : dataset).
Variable USE_CATEGORICAL : bool.

(** C5: the training cells invoke the external trainer exactly twice, first
    with 500 trees of depth 3 and then with 5000 trees of depth 12; the two
    profiles differ, every other setting of the two invocations is the same,
    and both use objective 'binary:logistic' and eval_metric 'aucpr'. *)
Theorem trainer_invoked_twice (log : trainer_log) :
  exists small_model large_model : trainer_call,
    training_cells X_train y_train X_test y_test USE_CATEGORICAL log
    = ((small_model, large_model), log ++ [small_model; large_model])
    /\ profile small_model = (500, 3)
    /\ profile large_model = (5000, 12)
    /\ profile small_model <> profile large_model
    /\ other_settings small_model = other_settings large_model
    /\ Forall (fun call =>
                 objective (params call) = "binary:logistic"
                 /\ eval_metric (params call) = "aucpr")
              [small_model; large_model].
Proof.
  do 2 eexists. unfold training_cells, train_model, fit.
  rewrite <- app_assoc. cbn [app].
  repeat split; try reflexivity.
  - cbn. discriminate.
  - repeat constructor.
Qed.

End TrainingFacts.

(** ** Conversion to NumPy *)

Section PandasFacts.

Import Pandas.
Context {column ndarray : Type}.
Variable is_category : column -> bool.
Variable cat_codes : column -> column.
Variable to_numeric_downcast_float : column -> result column.
Variable values_of : list (string * column) -> ndarray.

Implicit Types (h : gmap nat (list (string * column))) (df l : nat).

Lemma only_writes_ret {A : Type} l (a : A) :
  only_writes (column := column) l (ret a).
Proof. intros h d Hd. exists d. cbn. symmetry. apply insert_id. exact Hd. Qed.

Lemma only_writes_lift {A : Type} l (r : result A) :
  only_writes (column := column) l (lift r).
Proof. intros h d Hd. exists d. cbn. symmetry. apply insert_id. exact Hd. Qed.

Lemma only_writes_bindM {A B : Type} l (m : @M column A) (k : A -> @M column B) :
  only_writes l m -> (forall a, only_writes l (k a)) ->
  only_writes l (bindM m k).
Proof.
  intros Hm Hk h d Hd. unfold bindM.
  destruct (Hm h d Hd) as [d1 H1].
  destruct (m h) as [[a|e] h1]; cbn [snd] in H1; subst h1.
  - destruct (Hk a (<[l := d1]> h) d1 (lookup_insert_eq _ _ _)) as [d2 H2].
    exists d2. rewrite H2. apply insert_insert_eq.
  - exists d1. reflexivity.
Qed.

Lemma only_writes_deref_then {A : Type} l (k : list (string * column) -> @M column A) :
  (forall d, only_writes l (k d)) -> only_writes l (bindM (deref l) k).
Proof.
  intros Hk. apply only_writes_bindM; [|exact Hk].
  intros h d Hd. exists d. unfold deref. rewrite Hd. cbn.
  symmetry. apply insert_id. exact Hd.
Qed.

Lemma only_writes_getitem l col :
  only_writes (A := column) l (getitem l col).
Proof.
  apply only_writes_deref_then. intros d.
  destruct (frame_get d col); [apply only_writes_ret | apply only_writes_lift].
Qed.

Lemma only_writes_setitem l col (c : column) :
  only_writes (A := unit) l (setitem l col c).
Proof.
  apply only_writes_deref_then. intros d h d0 Hd0. eexists. reflexivity.
Qed.

Lemma only_writes_for_each {A : Type} l (xs : list A) (body : A -> @M column unit) :
  (forall x, only_writes l (body x)) -> only_writes l (for_each xs body).
Proof.
  intros Hbody. induction xs as [|x xs IH]; cbn [for_each].
  - apply only_writes_ret.
  - apply only_writes_bindM; [apply Hbody | intros _; exact IH].
Qed.

Lemma only_writes_convert_copy df' :
  only_writes df'
    (convert_copy is_category cat_codes to_numeric_downcast_float values_of df').
Proof.
  unfold convert_copy, category_columns, columns, values.
  apply only_writes_bindM.
  { apply only_writes_deref_then; intros d0. apply only_writes_ret. }
  intros cat_cols. apply only_writes_bindM.
  { apply only_writes_for_each. intros col.
    apply only_writes_bindM; [apply only_writes_getitem | intros s].
    apply only_writes_setitem. }
  intros _. apply only_writes_bindM.
  { apply only_writes_deref_then; intros d1. apply only_writes_ret. }
  intros cols. apply only_writes_bindM.
  { apply only_writes_for_each. intros col.
    apply only_writes_bindM; [apply only_writes_getitem | intros s].
    apply only_writes_bindM; [apply only_writes_lift | intros s'].
    apply only_writes_setitem. }
  intros _. apply only_writes_deref_then; intros d2. apply only_writes_ret.
Qed.

Lemma bindM_Ok_inv {A B : Type} (m : @M column A) (k : A -> @M column B) h b h' :
  bindM m k h = (Ok b, h') ->
  exists a h1, m h = (Ok a, h1) /\ k a h1 = (Ok b, h').
Proof.
  unfold bindM. destruct (m h) as [[a|e] h1]; intros Hk; [eauto | discriminate].
Qed.

(** What [convert_copy] returns is the value of the object [df'] as it is at
    the end. *)
Lemma convert_copy_returns_values df' h v h' :
  convert_copy is_category cat_codes to_numeric_downcast_float values_of df' h
  = (Ok v, h') ->
  exists d', h' !! df' = Some d' /\ v = values_of d'.
Proof.
  unfold convert_copy. intros Hrun.
  apply bindM_Ok_inv in Hrun as (cat_cols & h1 & _ & Hrun).
  apply bindM_Ok_inv in Hrun as (? & h2 & _ & Hrun).
  apply bindM_Ok_inv in Hrun as (cols & h3 & _ & Hrun).
  apply bindM_Ok_inv in Hrun as (? & h4 & _ & Hrun).
  unfold values, bindM, deref, ret in Hrun.
  destruct (h4 !! df') as [d4|] eqn:Hd4; [|discriminate].
  injection Hrun as Hv Hh. subst h' v. eauto.
Qed.

Lemma convert_to_numpy_unfold df h d :
  h !! df = Some d ->
  convert_to_numpy is_category cat_codes to_numeric_downcast_float values_of df h
  = convert_copy is_category cat_codes to_numeric_downcast_float values_of
      (fresh (dom h)) (<[fresh (dom h) := d]> h).
Proof.
  intros Hd. unfold convert_to_numpy, copy.
  unfold bindM at 1. unfold bindM at 1. unfold deref at 1. rewrite Hd.
  reflexivity.
Qed.

(** C10: [convert_to_numpy df] leaves the object [df] refers to, and every
    other object that existed before the call, as it was.  The only change to
    the heap is one new object, the internal copy; it receives the category
    codes and the numeric downcast, and its values are what is returned. *)
Theorem convert_to_numpy_preserves_argument h df (d : list (string * column)) :
  h !! df = Some d ->
  let run :=
    convert_to_numpy is_category cat_codes to_numeric_downcast_float values_of df h in
  exists d' : list (string * column),
    run.2 = <[fresh (dom h) := d']> h
    /\ run.2 !! df = Some d
    /\ (forall l d0, h !! l = Some d0 -> run.2 !! l = Some d0)
    /\ (forall v, run.1 = Ok v -> v = values_of d').
Proof.
  intros Hd run. subst run. rewrite (convert_to_numpy_unfold df h d Hd).
  set (df' := fresh (dom h)).
  assert (Hfresh : h !! df' = None).
  { apply not_elem_of_dom. apply is_fresh. }
  destruct (only_writes_convert_copy df' (<[df' := d]> h) d (lookup_insert_eq _ _ _))
    as [d' Hheap].
  rewrite insert_insert_eq in Hheap.
  exists d'. split; [exact Hheap|].
  set (run := convert_copy _ _ _ _ _ _) in *.
  assert (Hframe : forall l d0, h !! l = Some d0 -> run.2 !! l = Some d0).
  { intros l d0 Hl. rewrite Hheap. rewrite lookup_insert_ne; [exact Hl|].
    intros ->. congruence. }
  split; [apply Hframe; exact Hd|]. split; [exact Hframe|].
  intros v Hv.
  destruct run as [r h'] eqn:Hrun. subst run.
  cbn [fst snd] in *. subst r.
  apply convert_copy_returns_values in Hrun as (d'' & Hd'' & ->).
  rewrite Hheap, lookup_insert_eq in Hd''. congruence.
Qed.

End PandasFacts.

Lemma convert_to_numpy_preserves_argument_witness :
  let h : gmap nat (list (string * Z)) := {[ 0%nat := [("TransactionAmt", 68)] ]} in
  let run := Pandas.convert_to_numpy (fun _ => false) (fun c => c) Ok (fun d => d) 0%nat h in
  exists d' : list (string * Z),
    run.2 = <[fresh (dom h) := d']> h
    /\ run.2 !! 0%nat = Some [("TransactionAmt", 68)]
    /\ (forall l d0, h !! l = Some d0 -> run.2 !! l = Some d0)
    /\ (forall v, run.1 = Ok v -> v = d').
Proof.
  intros h.
  apply (convert_to_numpy_preserves_argument
           (fun _ => false) (fun c => c) Ok (fun d => d) h 0%nat
           [("TransactionAmt", 68)]).
  reflexivity.
Defined.

(** ** Data preparation *)

Section DataPrepFacts.

Import DataPrep.
Context {float64 : Type}.
Variable median : list float64 -> float64.

Implicit Types (data df sub : gmap string (@column float64)) (c : @column float64).

Lemma fill_no_missing {A : Type} (value : A) (cells : list (option A)) :
  existsb missing (fill value cells) = false.
Proof. induction cells as [|cell cells IH]; [reflexivity | exact IH]. Qed.


Lemma nan_columns_spec data label :
  label ∈ nan_columns data <-> exists c, data !! label = Some c /\ any_isna c = true.
Proof.
  unfold nan_columns. rewrite elem_of_dom. unfold is_Some.
  setoid_rewrite map_lookup_filter_Some. cbn. reflexivity.
Qed.

(** Replacing the selected columns of a table by their images. *)
Lemma update_selected data sub (g : @column float64 -> @column float64)
    (sel : @column float64 -> bool) :
  (forall label c, sub !! label = Some c <-> data !! label = Some c /\ sel c = true) ->
  (g <$> sub) ∪ data = (fun c => if sel c then g c else c) <$> data.
Proof.
  intros Hsub. apply map_eq. intros label.
  rewrite lookup_union, !lookup_fmap.
  destruct (data !! label) as [c|] eqn:Hdata.
  - destruct (sel c) eqn:Hsel.
    + assert (Hs : sub !! label = Some c) by (apply Hsub; auto).
      rewrite Hs. cbn. rewrite Hsel. reflexivity.
    + destruct (sub !! label) as [c'|] eqn:Hs.
      * apply Hsub in Hs as [Hc' Hsel']. congruence.
      * cbn. rewrite Hsel. reflexivity.
  - destruct (sub !! label) as [c'|] eqn:Hs; [|reflexivity].
    apply Hsub in Hs as [Hc' _]. congruence.
Qed.

Lemma float_nan_subset_spec data label c :
  select_dtypes_float64 (getitem_columns data (nan_columns data)) !! label = Some c
  <-> data !! label = Some c /\ float_with_missing c = true.
Proof.
  unfold select_dtypes_float64, getitem_columns, float_with_missing.
  rewrite !map_lookup_filter_Some. cbn. rewrite nan_columns_spec, andb_true_iff.
  split.
  - intros [[Hc [c' [Hc' Hna]]] Hf]. split; [exact Hc|]. split; [exact Hf|]. congruence.
  - intros [Hc [Hf Hna]]. eauto.
Qed.

Lemma fit_transform_total sub :
  sub <> ∅ ->
  (forall label c, sub !! label = Some c ->
     impute_column median c = Some (imputed median c)) ->
  fit_transform median sub = Ok (imputed median <$> sub).
Proof.
  intros Hne Htotal. unfold fit_transform.
  destruct (decide (sub = ∅)) as [Hempty|_]; [contradiction|]. f_equal.
  apply map_eq. intros label. rewrite lookup_omap, lookup_fmap.
  destruct (sub !! label) as [c|] eqn:Hs; [|reflexivity].
  cbn. apply Htotal with label. exact Hs.
Qed.

(** The imputer is given no column exactly when no float64 column has a
    missing cell. *)
Lemma float_nan_subset_empty data :
  select_dtypes_float64 (getitem_columns data (nan_columns data)) = ∅
  <-> ~ float_missing_somewhere data.
Proof.
  split.
  - intros Hempty (label & c & Hc & Hsel).
    assert (Hs : select_dtypes_float64 (getitem_columns data (nan_columns data)) !! label
                 = Some c) by (apply float_nan_subset_spec; auto).
    rewrite Hempty, lookup_empty in Hs. discriminate Hs.
  - intros Hnone. apply map_eq. intros label. rewrite lookup_empty.
    destruct (select_dtypes_float64 _ !! label) as [c|] eqn:Hs; [|reflexivity].
    apply float_nan_subset_spec in Hs as [Hc Hsel].
    exfalso. apply Hnone. exists label, c. auto.
Qed.

Lemma impute_column_imputed data label c :
  medians_exist data -> data !! label = Some c -> float_with_missing c = true ->
  impute_column median c = Some (imputed median c).
Proof.
  intros Hmed Hc Hsel. destruct c as [cells| | |]; try discriminate Hsel.
  cbn in Hsel. specialize (Hmed label cells Hc Hsel).
  cbn. destruct (observed cells); [contradiction | reflexivity].
Qed.

Lemma setitem_columns_same_size data sub (g : @column float64 -> @column float64) :
  setitem_columns data (dom sub) (g <$> sub) = Ok ((g <$> sub) ∪ data).
Proof.
  unfold setitem_columns. rewrite size_dom, map_size_fmap.
  destruct (decide (size sub = size sub)); [reflexivity | contradiction].
Qed.

(** The table after the imputation, before the fill. *)
Lemma imputation_step data :
  float_missing_somewhere data -> medians_exist data ->
  let float_nan_subset := select_dtypes_float64 (getitem_columns data (nan_columns data)) in
  exists imputed_subset,
    fit_transform median float_nan_subset = Ok imputed_subset
    /\ setitem_columns data (dom float_nan_subset) imputed_subset
       = Ok ((fun c => if float_with_missing c then imputed median c else c) <$> data).
Proof.
  intros Hsome Hmed sub. exists (imputed median <$> sub). split.
  2:{ rewrite setitem_columns_same_size. f_equal.
      apply update_selected. intros label c. apply float_nan_subset_spec. }
  apply fit_transform_total.
  - intros Hempty. apply float_nan_subset_empty in Hempty. contradiction.
  - intros label c Hs. apply float_nan_subset_spec in Hs as [Hc Hsel].
    eapply impute_column_imputed; eassumption.
Qed.

Lemma obj_nan_subset_spec data label c :
  let data1 := (fun c => if float_with_missing c then imputed median c else c) <$> data in
  select_dtypes_object (getitem_columns data1 (nan_columns data)) !! label = Some c
  <-> data1 !! label = Some c /\ object_with_missing c = true.
Proof.
  intros data1. unfold select_dtypes_object, getitem_columns, object_with_missing.
  rewrite !map_lookup_filter_Some. cbn. rewrite nan_columns_spec, andb_true_iff.
  unfold data1. rewrite lookup_fmap.
  destruct (data !! label) as [c0|] eqn:Hdata; cbn.
  - assert (Hobj : is_object c = true ->
              Some (if float_with_missing c0 then imputed median c0 else c0) = Some c ->
              c0 = c).
    { intros Ho Heq. injection Heq as Heq.
      destruct c0 as [cells| | |]; cbn in Heq; try exact Heq.
      destruct (existsb missing cells); subst c; discriminate Ho. }
    split.
    + intros [[Heq [c' [Hc' Hna]]] Ho]. split; [exact Heq|]. split; [exact Ho|].
      rewrite <- (Hobj Ho Heq). congruence.
    + intros [Heq [Ho Hna]]. split; [|exact Ho]. split; [exact Heq|].
      exists c0. split; [reflexivity|]. rewrite (Hobj Ho Heq). exact Hna.
  - split; [intros [[Heq _] _] | intros [Heq _]]; discriminate.
Qed.

Lemma prepared_two_steps c :
  (let c1 := if float_with_missing c then imputed median c else c in
   if object_with_missing c1 then fillna_column "UNKNOWN" c1 else c1)
  = prepared median c.
Proof.
  destruct c as [cells|cells|cells|cells]; cbn;
    unfold float_with_missing, object_with_missing; cbn;
    destruct (existsb missing cells); reflexivity.
Qed.

(** The whole step in closed form: column by column. *)
Lemma impute_cell_prepared data :
  float_missing_somewhere data -> medians_exist data ->
  impute_cell median data = Ok (prepared median <$> data).
Proof.
  intros Hsome Hmed. unfold impute_cell.
  destruct (imputation_step data Hsome Hmed) as (imputed_subset & Hfit & Hset).
  rewrite Hfit. cbn [bind]. rewrite Hset. cbn [bind].
  unfold fillna. rewrite setitem_columns_same_size. f_equal.
  rewrite (update_selected _ _ (fillna_column "UNKNOWN") object_with_missing)
    by (intros label c; apply obj_nan_subset_spec).
  rewrite <- map_fmap_compose. apply map_fmap_ext.
  intros label c _. apply prepared_two_steps.
Qed.


End DataPrepFacts.





(** ** Strings *)

Section StrFacts.

Import Str.
Implicit Types (n s x y d : string) (c : ascii).

(** [append] is kept folded by the reduction tactics; these are its
    equations. *)
Lemma append_nil_l s : EmptyString +:+ s = s.
Proof. reflexivity. Qed.

Lemma append_cons a x s : String a x +:+ s = String a (x +:+ s).
Proof. reflexivity. Qed.

Lemma append_assoc x y s : (x +:+ y) +:+ s = x +:+ (y +:+ s).
Proof.
  induction x as [|a x IH]; [reflexivity|].
  rewrite !append_cons. f_equal. exact IH.
Qed.

Lemma append_nil_r x : x +:+ EmptyString = x.
Proof.
  induction x as [|a x IH]; [reflexivity|].
  rewrite append_cons. f_equal. exact IH.
Qed.

Lemma startswith_append n s : startswith n (n +:+ s) = true.
Proof.
  induction n as [|a n IH]; [reflexivity|].
  rewrite append_cons. cbn [startswith]. rewrite Ascii.eqb_refl. exact IH.
Qed.

Lemma startswith_append_both x n s :
  startswith (x +:+ n) (x +:+ s) = startswith n s.
Proof.
  induction x as [|a x IH]; [reflexivity|].
  rewrite !append_cons. cbn [startswith]. rewrite Ascii.eqb_refl. exact IH.
Qed.

Lemma contains_append_r n x s : contains n s = true -> contains n (x +:+ s) = true.
Proof.
  intros Hs. induction x as [|a x IH]; [exact Hs|].
  rewrite append_cons. cbn [contains]. rewrite IH. apply orb_true_r.
Qed.

Lemma contains_startswith n s : startswith n s = true -> contains n s = true.
Proof. intros Hs. destruct s; cbn [contains]; rewrite Hs; reflexivity. Qed.

(** A text contains what was put in its middle. *)
Lemma contains_middle n x y : contains n (x +:+ n +:+ y) = true.
Proof.
  apply contains_append_r, contains_startswith, startswith_append.
Qed.

Lemma startswith_nil n : n <> EmptyString -> startswith n EmptyString = false.
Proof. destruct n; [contradiction | reflexivity]. Qed.

Lemma contains_nil n : n <> EmptyString -> contains n EmptyString = false.
Proof. intros Hn. cbn. rewrite startswith_nil by exact Hn. reflexivity. Qed.

(** A character the needle does not have stops every match that reaches it. *)
Lemma startswith_foreign n x c s :
  occurs c n = false -> startswith n (x +:+ String c s) = startswith n x.
Proof.
  revert x. induction n as [|a n IH]; intros x Hc; [reflexivity|].
  cbn in Hc. apply orb_false_elim in Hc as [Hac Hn].
  destruct x as [|b x].
  - rewrite append_nil_l. cbn. rewrite Hac. reflexivity.
  - rewrite append_cons. cbn [startswith]. rewrite IH by exact Hn. reflexivity.
Qed.

Lemma contains_foreign n x c s :
  n <> EmptyString -> occurs c n = false ->
  contains n (x +:+ String c s) = contains n x || contains n s.
Proof.
  intros Hn Hc. induction x as [|b x IH].
  - rewrite contains_nil by exact Hn. rewrite append_nil_l. cbn [contains orb].
    rewrite <- (append_nil_l (String c s)) at 1.
    rewrite startswith_foreign, startswith_nil by assumption. reflexivity.
  - rewrite append_cons. cbn [contains].
    rewrite <- append_cons.
    rewrite startswith_foreign, IH by assumption.
    apply orb_assoc.
Qed.

Lemma disjoint_chars_spec d n c :
  disjoint_chars d n = true -> occurs c d = true -> occurs c n = false.
Proof.
  induction d as [|a d IH]; cbn; [discriminate|].
  intros [Ha Hd]%andb_true_iff [Hac|Hc]%orb_true_iff.
  - apply Ascii.eqb_eq in Hac. subst a. apply negb_true_iff. exact Ha.
  - apply IH; assumption.
Qed.

(** A stretch of characters the needle does not have can be cut out. *)
Lemma contains_foreign_prefix n d s :
  n <> EmptyString -> (forall c, occurs c d = true -> occurs c n = false) ->
  contains n (d +:+ s) = contains n s.
Proof.
  intros Hn. induction d as [|a d IH]; intros Hd; [reflexivity|].
  rewrite append_cons, <- (append_nil_l (String a (d +:+ s))).
  rewrite contains_foreign, contains_nil; [|exact Hn..|].
  - apply IH. intros c Hc. apply Hd. cbn. rewrite Hc. apply orb_true_r.
  - apply Hd. cbn. rewrite Ascii.eqb_refl. reflexivity.
Qed.

Lemma contains_foreign_middle n x d y :
  n <> EmptyString -> d <> EmptyString ->
  (forall c, occurs c d = true -> occurs c n = false) ->
  contains n (x +:+ d +:+ y) = contains n x || contains n y.
Proof.
  intros Hn Hd Hfor. destruct d as [|a d]; [contradiction|].
  rewrite append_cons, contains_foreign; [|exact Hn|].
  - rewrite contains_foreign_prefix; [reflexivity|exact Hn|].
    intros c Hc. apply Hfor. cbn. rewrite Hc. apply orb_true_r.
  - apply Hfor. cbn. rewrite Ascii.eqb_refl. reflexivity.
Qed.

Lemma contains_foreign_end n x d :
  n <> EmptyString -> d <> EmptyString ->
  (forall c, occurs c d = true -> occurs c n = false) ->
  contains n (x +:+ d) = contains n x.
Proof.
  intros Hn Hd Hfor. rewrite <- (append_nil_r d).
  rewrite contains_foreign_middle, contains_nil by assumption.
  apply orb_false_r.
Qed.

(** Between double quotes. *)
Lemma contains_quoted n x s y :
  n <> EmptyString -> occurs "034" n = false ->
  contains n (x +:+ dq +:+ s +:+ dq +:+ y)
  = contains n x || (contains n s || contains n y).
Proof.
  intros Hn Hq. unfold dq. rewrite !append_cons, !append_nil_l.
  rewrite !contains_foreign by assumption. reflexivity.
Qed.

(** A needle without a newline lies within one line. *)
Lemma contains_unlines n (lines : list string) :
  n <> EmptyString -> occurs "010" n = false ->
  contains n (unlines lines) = existsb (contains n) lines.
Proof.
  intros Hn Hnl. unfold unlines. induction lines as [|l lines IH].
  - apply contains_nil. exact Hn.
  - destruct lines as [|l' lines].
    + cbn. symmetry. apply orb_false_r.
    + change (String.concat nl (l :: l' :: lines))
        with (l +:+ String "010" (String.concat nl (l' :: lines))).
      rewrite contains_foreign, IH by assumption. reflexivity.
Qed.

Lemma unlines_app (xs ys : list string) :
  xs <> [] -> ys <> [] ->
  unlines (xs ++ ys) = unlines xs +:+ nl +:+ unlines ys.
Proof.
  intros Hxs Hys. induction xs as [|x xs IH]; [contradiction|].
  destruct xs as [|x' xs].
  - destruct ys as [|y ys]; [contradiction|]. reflexivity.
  - change (unlines ((x :: x' :: xs) ++ ys))
      with (x +:+ nl +:+ unlines ((x' :: xs) ++ ys)).
    rewrite IH by discriminate.
    change (unlines (x :: x' :: xs)) with (x +:+ nl +:+ unlines (x' :: xs)).
    rewrite !append_assoc. reflexivity.
Qed.

(** A text contains every run of its lines. *)
Lemma contains_unlines_block (xs block ys : list string) :
  block <> [] ->
  contains (unlines block) (unlines (xs ++ block ++ ys)) = true.
Proof.
  intros Hb.
  assert (Htail : exists post, unlines (block ++ ys) = unlines block +:+ post).
  { destruct ys as [|y ys].
    - exists EmptyString. rewrite app_nil_r, append_nil_r. reflexivity.
    - eexists. apply unlines_app; [exact Hb | discriminate]. }
  destruct Htail as [post Hpost].
  destruct xs as [|x xs].
  - cbn [app]. rewrite Hpost. apply (contains_middle _ EmptyString).
  - rewrite unlines_app; [|discriminate|destruct block; [contradiction|discriminate]].
    rewrite Hpost, <- append_assoc. apply contains_middle.
Qed.

Lemma pretty_N_char_number (k : N) : occurs (pretty_N_char k) number_chars = true.
Proof. unfold pretty_N_char. repeat case_match; reflexivity. Qed.

Lemma pretty_N_go_chars (k : N) s c :
  (forall c, occurs c s = true -> occurs c number_chars = true) ->
  occurs c (pretty_N_go k s) = true -> occurs c number_chars = true.
Proof.
  revert s. induction (N.lt_wf_0 k) as [k _ IH]. intros s Hs.
  destruct (decide (k = 0)%N) as [->|Hx].
  - rewrite pretty_N_go_0. apply Hs.
  - rewrite pretty_N_go_step by lia. apply IH.
    + apply N.div_lt; lia.
    + intros c' [Hc'|Hc']%orb_true_iff; [|apply Hs; exact Hc'].
      apply Ascii.eqb_eq in Hc'. subst c'. apply pretty_N_char_number.
Qed.

Lemma pretty_N_go_nonempty (k : N) s :
  s <> EmptyString -> pretty_N_go k s <> EmptyString.
Proof.
  revert s. induction (N.lt_wf_0 k) as [k _ IH]. intros s Hs.
  destruct (decide (k = 0)%N) as [->|Hx].
  - rewrite pretty_N_go_0. exact Hs.
  - rewrite pretty_N_go_step by lia. apply IH; [apply N.div_lt; lia | discriminate].
Qed.

Lemma pretty_positive_chars (p : positive) c :
  occurs c (pretty p) = true -> occurs c number_chars = true.
Proof.
  unfold pretty, pretty_positive, pretty, pretty_N.
  destruct (decide (N.pos p = 0)%N); [discriminate|].
  apply pretty_N_go_chars. discriminate.
Qed.

Lemma pretty_positive_nonempty (p : positive) : pretty p <> EmptyString.
Proof.
  unfold pretty, pretty_positive, pretty, pretty_N.
  destruct (decide (N.pos p = 0)%N); [discriminate|].
  rewrite pretty_N_go_step by lia. apply pretty_N_go_nonempty. discriminate.
Qed.

Lemma pretty_Z_chars (z : Z) c :
  occurs c (pretty z) = true -> occurs c number_chars = true.
Proof.
  destruct z as [|p|p]; unfold pretty, pretty_Z.
  - cbn [occurs]. intros [Hc|Hc]%orb_true_iff; [|discriminate].
    apply Ascii.eqb_eq in Hc. subst c. reflexivity.
  - apply pretty_positive_chars.
  - rewrite append_cons, append_nil_l. cbn [occurs].
    intros [Hc|Hc]%orb_true_iff.
    + apply Ascii.eqb_eq in Hc. subst c. reflexivity.
    + apply pretty_positive_chars with p. exact Hc.
Qed.

Lemma pretty_Z_nonempty (z : Z) : pretty z <> EmptyString.
Proof.
  destruct z as [|p|p]; unfold pretty, pretty_Z; try discriminate.
  apply pretty_positive_nonempty.
Qed.

(** A printed integer has no character of a needle without digits. *)
Lemma pretty_Z_foreign (z : Z) n c :
  disjoint_chars number_chars n = true ->
  occurs c (pretty z) = true -> occurs c n = false.
Proof.
  intros Hn Hc. apply (disjoint_chars_spec number_chars); [exact Hn|].
  apply pretty_Z_chars with z. exact Hc.
Qed.

End StrFacts.

(** ** The configuration text *)

Section ConfigFacts.

Import Str Deploy.
Context {model : Type}.
Implicit Types (features num_classes mbs : Z).
Implicit Types (model_dir deployment_type storage_type : string).

Lemma lower_cpu_dec deployment_type :
  String.eqb (lower deployment_type) "cpu" = true <-> lower deployment_type = "cpu".
Proof. apply String.eqb_eq. Qed.

(** Where the CPU instance group can be in the text: in the instance-group
    line or inside the storage type. *)
Lemma contains_cpu_group mbs features num_classes deployment_type storage_type :
  contains (instance_group_of "KIND_CPU")
    (config_text mbs features num_classes deployment_type storage_type)
  = String.eqb (lower deployment_type) "cpu"
    || contains (instance_group_of "KIND_CPU") storage_type.
Proof.
  set (needle := instance_group_of "KIND_CPU").
  assert (Hn : needle <> EmptyString) by discriminate.
  assert (Hnum : forall (z : Z) c, occurs c (pretty z) = true -> occurs c needle = false).
  { intros z c. apply pretty_Z_foreign. reflexivity. }
  unfold config_text. rewrite contains_unlines; [|exact Hn|reflexivity].
  unfold config_lines. cbn [existsb].
  rewrite (contains_foreign_end needle _ (pretty mbs))
    by first [exact Hn | apply pretty_Z_nonempty | apply Hnum].
  rewrite !(contains_foreign_middle needle _ (pretty _))
    by first [exact Hn | apply pretty_Z_nonempty | apply Hnum].
  rewrite (contains_quoted needle _ storage_type) by (exact Hn || reflexivity).
  unfold instance_kind.
  destruct (String.eqb (lower deployment_type) "cpu");
    destruct (contains needle storage_type); vm_compute; reflexivity.
Qed.

(** The text contains every run of the lines it is made of. *)
Lemma config_text_block mbs features num_classes deployment_type storage_type
    (before : nat) (block : list string) :
  block <> [] ->
  take (length block)
    (drop before (config_lines mbs features num_classes
                    (instance_kind deployment_type) storage_type)) = block ->
  contains (unlines block)
    (config_text mbs features num_classes deployment_type storage_type) = true.
Proof.
  intros Hb Hblock. unfold config_text.
  set (lines := config_lines _ _ _ _ _) in *.
  rewrite <- (take_drop before lines).
  rewrite <- (take_drop (length block) (drop before lines)), Hblock.
  apply contains_unlines_block. exact Hb.
Qed.

(** C3, amended: the instance-group line names KIND_CPU exactly when
    [deployment_type] lowercased is 'cpu', and KIND_GPU otherwise; the text
    contains a CPU instance group exactly in that case provided the storage
    type does not itself contain one; and for every deployment and storage
    type the text contains the input tensor, the output tensor, the
    model-format tag, the dynamic-batching block and, as its second line,
    the line [max_batch_size: N] where [N] is, in decimal and with nothing
    after it, [MAX_MEMORY_BYTES // ((features + num_classes) * 4)]. *)
Theorem generate_config_text features num_classes mbs
    model_dir deployment_type storage_type :
  max_batch_size features num_classes = Ok mbs ->
  let text := config_text mbs features num_classes deployment_type storage_type in
  generate_config (model := model) mbs features num_classes
    model_dir deployment_type storage_type
  = (os_path_join model_dir "config.pbtxt",
     [WriteFile (os_path_join model_dir "config.pbtxt") text])
  /\ mbs = MAX_MEMORY_BYTES / ((features + num_classes) * 4)
  /\ (contains (instance_group_of "KIND_CPU") storage_type = false ->
      (contains (instance_group_of "KIND_CPU") text = true
       <-> lower deployment_type = "cpu"))
  /\ (lower deployment_type = "cpu" ->
      contains (instance_group_of "KIND_CPU") text = true)
  /\ (lower deployment_type <> "cpu" ->
      contains (instance_group_of "KIND_GPU") text = true)
  /\ contains (unlines (input_block features)) text = true
  /\ contains (unlines (output_block num_classes)) text = true
  /\ contains (unlines model_type_block) text = true
  /\ contains (unlines dynamic_batching_block) text = true
  /\ startswith (unlines (max_batch_size_block mbs) +:+ nl) text = true.
Proof.
  intros Hmbs text. split; [reflexivity|].
  split.
  { unfold max_batch_size, floordiv in Hmbs.
    destruct (decide _); [discriminate|]. injection Hmbs as <-. reflexivity. }
  assert (Hkind : forall kind, instance_kind deployment_type = kind ->
            contains (instance_group_of kind) text = true).
  { intros kind Hk.
    apply (config_text_block _ _ _ _ _ 16 [instance_group_of kind]);
      [discriminate|]. rewrite Hk. reflexivity. }
  split; [|split; [|split]].
  - intros Hst. subst text. rewrite contains_cpu_group, Hst, orb_false_r.
    apply lower_cpu_dec.
  - intros Hcpu. apply Hkind. unfold instance_kind.
    apply lower_cpu_dec in Hcpu. rewrite Hcpu. reflexivity.
  - intros Hgpu. apply Hkind. unfold instance_kind.
    destruct (String.eqb (lower deployment_type) "cpu") eqn:Hcpu; [|reflexivity].
    apply lower_cpu_dec in Hcpu. contradiction.
  - repeat split.
    + apply (config_text_block _ _ _ _ _ 4); [discriminate | reflexivity].
    + apply (config_text_block _ _ _ _ _ 11); [discriminate | reflexivity].
    + apply (config_text_block _ _ _ _ _ 19); [discriminate | reflexivity].
    + apply (config_text_block _ _ _ _ _ 40); [discriminate | reflexivity].
    + subst text. unfold config_text, config_lines, max_batch_size_block, unlines.
      cbn [String.concat]. rewrite !append_assoc.
      rewrite !startswith_append_both. apply startswith_append.
Qed.

End ConfigFacts.

Lemma generate_config_text_witness :
  Str.contains (Deploy.instance_group_of "KIND_CPU")
    (Deploy.config_text 37974 393 2 "CPU" "AUTO") = true
  <-> Str.lower "CPU" = "cpu".
Proof.
  refine (proj1 (proj2 (proj2
    (generate_config_text (model := unit) 393 2 37974
       "/home/user/model_repository/small_model-cpu" "CPU" "AUTO" _))) _);
    reflexivity.
Defined.

(** C3 as stated fails for a storage type that carries an instance group of
    its own: deployed for GPU, the text contains a CPU instance group. *)
Lemma generate_config_text_injected :
  Str.contains (Deploy.instance_group_of "KIND_CPU")
    (Deploy.config_text 37974 393 2 "gpu" Deploy.injected_storage_type) = true
  /\ Str.lower "gpu" <> "cpu".
Proof. split; [vm_compute; reflexivity | discriminate]. Qed.

(** ** The model repository layout *)

Section LayoutFacts.

Import Str Deploy.
Context {model : Type}.
Implicit Types (cwd model_name a b x y : string) (c : ascii).

Lemma append_nonempty x y : y <> EmptyString -> x +:+ y <> EmptyString.
Proof. destruct x; [intros H; exact H | discriminate]. Qed.

Lemma endswith_char_append c x y :
  y <> EmptyString -> endswith_char c (x +:+ y) = endswith_char c y.
Proof.
  intros Hy. induction x as [|a x IH]; [reflexivity|].
  rewrite append_cons. cbn [endswith_char].
  destruct (x +:+ y) eqn:Hxy; [|exact IH].
  exfalso. apply (append_nonempty x y Hy). exact Hxy.
Qed.

Lemma eqb_append_nonempty x y :
  y <> EmptyString -> String.eqb (x +:+ y) EmptyString = false.
Proof.
  intros Hy. apply String.eqb_neq. apply append_nonempty. exact Hy.
Qed.

(** Joining a relative name to a directory. *)
Lemma os_path_join_relative a b :
  startswith "/" b = false ->
  os_path_join a b = a +:+ separator_after a +:+ b.
Proof.
  intros Hb. unfold os_path_join, separator_after. rewrite Hb.
  destruct (String.eqb a EmptyString || endswith_char "/" a); reflexivity.
Qed.

(** The repository path ends in [model_repository]. *)
Lemma REPO_PATH_suffix cwd :
  REPO_PATH cwd = (cwd +:+ separator_after cwd) +:+ "model_repository".
Proof.
  unfold REPO_PATH. rewrite os_path_join_relative by reflexivity.
  symmetry. apply append_assoc.
Qed.

Lemma separator_after_REPO_PATH cwd : separator_after (REPO_PATH cwd) = "/".
Proof.
  unfold separator_after. rewrite REPO_PATH_suffix.
  rewrite eqb_append_nonempty, endswith_char_append by discriminate.
  reflexivity.
Qed.

(** After a directory name that ends in a separator and a relative name, the
    separator is the one after the name alone, unless the name is empty. *)
Lemma separator_after_dir a model_name :
  separator_after ((a +:+ "/") +:+ model_name)
  = if String.eqb model_name EmptyString || endswith_char "/" model_name
    then EmptyString else "/".
Proof.
  unfold separator_after. destruct model_name as [|c model_name].
  - rewrite append_nil_r, eqb_append_nonempty, endswith_char_append by discriminate.
    reflexivity.
  - rewrite eqb_append_nonempty, endswith_char_append by discriminate.
    reflexivity.
Qed.


End LayoutFacts.



(** ** The final build stage *)

Section BuildFacts.

Import Str Build.
Implicit Types (files stage : gmap (list string) node) (dir q : list string).
Implicit Types (build_args : gmap string string) (base build_stage final : image).

Lemma run_rm_contents_lookup dir files q :
  run_rm_contents dir files !! q
  = if is_dir files dir && matches_glob dir q then None else files !! q.
Proof.
  unfold run_rm_contents, is_dir.
  destruct (files !! dir) as [[|content]|]; cbn [andb]; try reflexivity.
  destruct (matches_glob dir q) eqn:Hglob.
  - apply map_lookup_filter_None. right. intros x _. cbn. congruence.
  - destruct (files !! q) as [x|] eqn:Hq.
    + apply map_lookup_filter_Some. split; [exact Hq | exact Hglob].
    + apply map_lookup_filter_None. left. exact Hq.
Qed.

Lemma created_parents_lookup (ps : list (list string)) q :
  (list_to_map (map (fun a => (a, Dir)) ps) : gmap (list string) node) !! q
  = if bool_decide (q ∈ ps) then Some Dir else None.
Proof.
  induction ps as [|a ps IH]; cbn [map].
  - rewrite list_to_map_nil, lookup_empty. reflexivity.
  - rewrite list_to_map_cons. destruct (decide (a = q)) as [->|Hne].
    + rewrite lookup_insert_eq, bool_decide_true by left. reflexivity.
    + rewrite lookup_insert_ne, IH by exact Hne.
      apply (f_equal (fun b : bool => if b then Some Dir else None)).
      apply bool_decide_ext. rewrite elem_of_cons.
      split; [intros Hq; right; exact Hq | intros [Hq|Hq]; [congruence | exact Hq]].
Qed.

Lemma parents_shorter dir a : a ∈ parents dir -> (length a < length dir)%nat.
Proof.
  unfold parents. intros Hin. apply list_elem_of_fmap in Hin as (k & -> & Hk).
  apply elem_of_seq in Hk. rewrite length_take. lia.
Qed.

Lemma prefix_of_length dir q : dir `prefix_of` q -> (length dir <= length q)%nat.
Proof. intros [rest ->]. rewrite length_app. lia. Qed.

Lemma below_not_parent dir q : dir `prefix_of` q -> q ∉ parents dir.
Proof.
  intros Hpre Hin. apply parents_shorter in Hin. apply prefix_of_length in Hpre. lia.
Qed.

Lemma parents_prefix dir (name : string) rest :
  dir <> [] -> dir ∈ parents (dir ++ name :: rest).
Proof.
  intros Hne. unfold parents. apply list_elem_of_fmap.
  exists (length dir). split.
  - rewrite take_app_length. reflexivity.
  - apply elem_of_seq. rewrite length_app. cbn [length].
    destruct dir; [contradiction|]. cbn [length]. lia.
Qed.

Lemma matches_glob_prefix dir q : matches_glob dir q = true -> dir `prefix_of` q.
Proof.
  unfold matches_glob. destruct (drop (length dir) q); [discriminate|].
  intros [Hpre _]%andb_true_iff. apply bool_decide_eq_true in Hpre. exact Hpre.
Qed.

Lemma matches_glob_outside dir q : ~ dir `prefix_of` q -> matches_glob dir q = false.
Proof.
  intros Hpre. apply not_true_is_false. intros Hg.
  apply Hpre, matches_glob_prefix, Hg.
Qed.

Lemma matches_glob_self dir : matches_glob dir dir = false.
Proof. unfold matches_glob. rewrite drop_all. reflexivity. Qed.

Lemma matches_glob_below dir (name : string) rest :
  matches_glob dir (dir ++ name :: rest) = negb (startswith "." name).
Proof.
  unfold matches_glob. rewrite drop_app_length.
  rewrite bool_decide_true by (exists (name :: rest); reflexivity). reflexivity.
Qed.

(** In a file system nothing lies below a path that is not a directory. *)
Lemma well_formed_below files dir q :
  well_formed files -> dir <> [] -> is_dir files dir = false ->
  matches_glob dir q = true -> files !! q = None.
Proof.
  intros Hwf Hne Hd Hq. destruct (files !! q) as [x|] eqn:Hlook; [|reflexivity].
  exfalso. specialize (Hwf q x Hlook). cbn in Hwf.
  rewrite forallb_forall in Hwf.
  pose proof (matches_glob_prefix _ _ Hq) as [rest ->].
  destruct rest as [|name rest].
  { rewrite app_nil_r, matches_glob_self in Hq. discriminate. }
  rewrite (Hwf dir) in Hd; [discriminate|].
  apply list_elem_of_In. apply parents_prefix. exact Hne.
Qed.

(** With nothing hidden in it, a directory is empty after [rm -rf dir/*]; and
    nothing was below the path if it was not a directory. *)
Lemma nothing_left_below files dir (name : string) rest :
  well_formed files -> no_hidden_entries dir files -> dir <> [] ->
  (if is_dir files dir && matches_glob dir (dir ++ name :: rest)
   then None else files !! (dir ++ name :: rest)) = None.
Proof.
  intros Hwf Hhid Hne. rewrite matches_glob_below.
  destruct (startswith "." name) eqn:Hdot; cbn [negb].
  - rewrite andb_false_r. apply Hhid. exact Hdot.
  - rewrite andb_true_r. destruct (is_dir files dir) eqn:Hd; [reflexivity|].
    apply (well_formed_below files dir); try assumption.
    rewrite matches_glob_below, Hdot. reflexivity.
Qed.

Lemma copied_entries_dir stage dir q :
  stage !! dir = Some Dir ->
  copied_entries stage dir !! q
  = if bool_decide (dir `prefix_of` q) then stage !! q else None.
Proof.
  intros Hdir. unfold copied_entries. rewrite Hdir.
  destruct (bool_decide_reflect (dir `prefix_of` q)) as [Hpre|Hpre].
  - destruct (stage !! q) as [x|] eqn:Hq.
    + apply map_lookup_filter_Some. split; [exact Hq | exact Hpre].
    + apply map_lookup_filter_None. left. exact Hq.
  - apply map_lookup_filter_None. right. intros x _. exact Hpre.
Qed.

(** What is copied is the stage's, at or below the path. *)
Lemma copied_entries_Some stage dir q x :
  copied_entries stage dir !! q = Some x ->
  dir `prefix_of` q /\ stage !! q = Some x.
Proof.
  unfold copied_entries. destruct (stage !! dir) as [[|content]|] eqn:Hdir.
  - intros [Hq Hpre]%map_lookup_filter_Some. split; assumption.
  - intros [<- <-]%lookup_singleton_Some. split; [reflexivity | exact Hdir].
  - rewrite lookup_empty. discriminate.
Qed.

Lemma copied_entries_agree stage1 stage2 dir :
  (forall q, dir `prefix_of` q -> stage1 !! q = stage2 !! q) ->
  copied_entries stage1 dir = copied_entries stage2 dir.
Proof.
  intros Hagree. unfold copied_entries.
  rewrite <- (Hagree dir) by reflexivity.
  destruct (stage1 !! dir) as [[|content]|]; try reflexivity.
  apply map_eq. intros q. rewrite !map_lookup_filter.
  destruct (decide (dir `prefix_of` q)) as [Hpre|Hpre].
  - rewrite Hagree by exact Hpre. reflexivity.
  - destruct (stage1 !! q), (stage2 !! q); cbn;
      rewrite ?option_guard_False by exact Hpre; reflexivity.
Qed.

Lemma copy_from_Built stage (name : string) files files' :
  copy_from stage name files = Built files' ->
  let dir := backend_dir name in
  is_Some (stage !! dir)
  /\ existsb (is_file files) (parents dir) = false
  /\ is_file stage dir && String.eqb name EmptyString = false
  /\ compatible (copied_entries stage dir) files = true
  /\ files' = copied_entries stage dir
              ∪ (files ∪ list_to_map (map (fun a => (a, Dir)) (parents dir))).
Proof.
  intros Hcopy dir. unfold copy_from in Hcopy. fold dir in Hcopy.
  destruct (stage !! dir) as [x|]; [|discriminate].
  destruct (existsb (is_file files) (parents dir)); [discriminate|].
  destruct (is_file stage dir && String.eqb name EmptyString); [discriminate|].
  destruct (compatible (copied_entries stage dir) files); [|discriminate].
  injection Hcopy as <-. repeat split. eauto.
Qed.

Lemma copy_from_lookup stage (name : string) files files' q :
  copy_from stage name files = Built files' ->
  files' !! q
  = match copied_entries stage (backend_dir name) !! q with
    | Some x => Some x
    | None =>
        match files !! q with
        | Some x => Some x
        | None =>
            if bool_decide (q ∈ parents (backend_dir name)) then Some Dir else None
        end
    end.
Proof.
  intros Hcopy. apply copy_from_Built in Hcopy as (_ & _ & _ & _ & ->).
  rewrite lookup_union, lookup_union, created_parents_lookup.
  destruct (copied_entries stage (backend_dir name) !! q);
    destruct (files !! q);
    destruct (bool_decide (q ∈ parents (backend_dir name))); reflexivity.
Qed.

Lemma backend_dir_nonempty (name : string) : backend_dir name <> [].
Proof. unfold backend_dir. cbn [app]. discriminate. Qed.

Lemma backend_dir_not_models (name : string) q :
  backend_dir name `prefix_of` q -> q <> ["models"].
Proof. intros [k ->]. unfold backend_dir. cbn [app]. discriminate. Qed.

Lemma parents_not_models (name : string) : ["models"] ∉ parents (backend_dir name).
Proof.
  unfold parents. intros Hin. apply list_elem_of_fmap in Hin as (k & Hk & Hin).
  apply elem_of_seq in Hin. unfold backend_dir in Hk. cbn [app] in Hk.
  destruct k as [|k]; [lia|]. discriminate Hk.
Qed.

(** The directories above the backend directory are the same, as files go,
    after the first two steps of the final stage. *)
Lemma parents_files_after_rm (name : string) files :
  existsb (is_file (run_rm_contents (backend_dir name) (<[["models"] := Dir]> files)))
    (parents (backend_dir name))
  = existsb (is_file files) (parents (backend_dir name)).
Proof.
  assert (Hsame : forall a, a ∈ parents (backend_dir name) ->
            is_file (run_rm_contents (backend_dir name) (<[["models"] := Dir]> files)) a
            = is_file files a).
  { intros a Ha. unfold is_file. rewrite run_rm_contents_lookup.
    assert (Hglob : matches_glob (backend_dir name) a = false).
    { apply matches_glob_outside. intros Hpre. exact (below_not_parent _ _ Hpre Ha). }
    rewrite Hglob, andb_false_r, lookup_insert_ne; [reflexivity|].
    intros <-. exact (parents_not_models name Ha). }
  induction (parents (backend_dir name)) as [|a ps IH]; [reflexivity|].
  cbn [existsb]. rewrite Hsame by left. rewrite IH; [reflexivity|].
  intros a' Ha'. apply Hsame. right. exact Ha'.
Qed.

(** What the final stage is made of when it builds. *)
Lemma final_stage_Built build_args base build_stage final :
  final_stage build_args base build_stage = Built final ->
  exists name : string,
    final_name build_args base = Some name
    /\ plain_name name = true
    /\ fs base !! ["models"] = None
    /\ env final = <["BACKEND_NAME" := name]> (env base)
    /\ copy_from (fs build_stage) name
         (run_rm_contents (backend_dir name) (<[["models"] := Dir]> (fs base)))
       = Built (fs final).
Proof.
  unfold final_stage, run_mkdir.
  destruct (fs base !! ["models"]) as [x|]; [discriminate|].
  destruct (final_name build_args base) as [name|]; [|discriminate].
  destruct (plain_name name) eqn:Hplain; [|discriminate].
  destruct (copy_from _ _ _) as [files3| |] eqn:Hcopy; try discriminate.
  intros [= <-]. exists name. cbn [fs env].
  split; [reflexivity|]. split; [exact Hplain|]. split; [reflexivity|].
  split; [reflexivity | exact Hcopy].
Qed.

(** C7, amended: for a plain backend name, a base image that is a file system
    without [/models] and without hidden entries in the backend directory,
    and a build stage that has the backend directory, with no regular file
    where the directory or a directory above it has to be, the final stage
    builds, and its image is the base image changed only as follows: the
    environment variable BACKEND_NAME is set; the directory [/models] exists;
    directories above the backend directory that were missing exist; at and
    below the backend directory the image has exactly what the build stage
    has there. *)
Theorem final_stage_changes build_args base build_stage (name : string) :
  let dir := backend_dir name in
  final_name build_args base = Some name ->
  plain_name name = true ->
  well_formed (fs base) ->
  no_hidden_entries dir (fs base) ->
  fs base !! ["models"] = None ->
  fs build_stage !! dir = Some Dir ->
  existsb (is_file (fs base)) (parents dir) = false ->
  is_file (fs base) dir = false ->
  exists final : image,
    final_stage build_args base build_stage = Built final
    /\ env final = <["BACKEND_NAME" := name]> (env base)
    /\ fs final !! ["models"] = Some Dir
    /\ (forall q, q <> ["models"] -> ~ dir `prefix_of` q ->
          fs final !! q
          = match fs base !! q with
            | Some x => Some x
            | None => if bool_decide (q ∈ parents dir) then Some Dir else None
            end)
    /\ (forall q, dir `prefix_of` q -> fs final !! q = fs build_stage !! q).
Proof.
  intros dir Hname Hplain Hwf Hhidden Hmodels Hbackend Hparents Hnofile.
  set (files1 := <[["models"] := Dir]> (fs base)).
  set (files2 := run_rm_contents dir files1).
  assert (Hfiles1 : forall q, q <> ["models"] -> files1 !! q = fs base !! q).
  { intros q Hq. unfold files1. apply lookup_insert_ne. congruence. }
  assert (Hdirne : dir <> ["models"])
    by (apply (backend_dir_not_models name); reflexivity).
  assert (Hisdir : is_dir files1 dir = is_dir (fs base) dir).
  { unfold is_dir. rewrite Hfiles1 by exact Hdirne. reflexivity. }
  assert (Hfiles2 : forall q, q <> ["models"] -> files2 !! q
            = if is_dir (fs base) dir && matches_glob dir q then None
              else fs base !! q).
  { intros q Hq. unfold files2.
    rewrite run_rm_contents_lookup, Hisdir, Hfiles1 by exact Hq. reflexivity. }
  assert (Hbelow : forall q, dir `prefix_of` q -> q <> dir -> files2 !! q = None).
  { intros q [rest ->] Hq. destruct rest as [|entry rest].
    { rewrite app_nil_r in Hq. contradiction. }
    rewrite Hfiles2.
    - apply nothing_left_below; [assumption..|apply backend_dir_nonempty].
    - apply (backend_dir_not_models name). exists (entry :: rest). reflexivity. }
  assert (Hdir2 : files2 !! dir = fs base !! dir).
  { rewrite Hfiles2 by exact Hdirne. rewrite matches_glob_self, andb_false_r.
    reflexivity. }
  assert (Hcompatible : compatible (copied_entries (fs build_stage) dir) files2 = true).
  { apply bool_decide_eq_true. intros q x Hq. cbn.
    apply copied_entries_Some in Hq as [Hpre Hq].
    destruct (decide (q = dir)) as [->|Hne].
    - rewrite Hdir2. unfold is_file in Hnofile.
      assert (x = Dir) by congruence. subst x.
      destruct (fs base !! dir) as [[|content]|]; [reflexivity|discriminate|reflexivity].
    - rewrite Hbelow by assumption. reflexivity. }
  assert (Hcopy : copy_from (fs build_stage) name files2
                  = Built (copied_entries (fs build_stage) dir
                           ∪ (files2 ∪ list_to_map (map (fun a => (a, Dir)) (parents dir))))).
  { unfold copy_from. fold dir. rewrite Hbackend.
    unfold files2, files1, dir. rewrite parents_files_after_rm. fold dir.
    rewrite Hparents. unfold is_file at 1. rewrite Hbackend. cbn [andb].
    fold files1. fold files2. rewrite Hcompatible. reflexivity. }
  pose proof (fun q => copy_from_lookup _ _ _ _ q Hcopy) as Hfiles3. fold dir in Hfiles3.
  eexists. split.
  { unfold final_stage, run_mkdir. rewrite Hmodels, Hname, Hplain.
    fold files1. fold dir. fold files2. rewrite Hcopy. reflexivity. }
  cbn [fs env]. split; [reflexivity|].
  assert (Houtside : forall q, ~ dir `prefix_of` q ->
            copied_entries (fs build_stage) dir !! q = None).
  { intros q Hpre. rewrite copied_entries_dir by exact Hbackend.
    rewrite bool_decide_false by exact Hpre. reflexivity. }
  split; [|split].
  - rewrite Hfiles3, Houtside.
    + unfold files2. rewrite run_rm_contents_lookup.
      rewrite matches_glob_outside, andb_false_r.
      * unfold files1. rewrite lookup_insert_eq. reflexivity.
      * intros Hpre. exact (backend_dir_not_models name _ Hpre eq_refl).
    + intros Hpre. exact (backend_dir_not_models name _ Hpre eq_refl).
  - intros q Hq Hpre. rewrite Hfiles3, Houtside, Hfiles2 by assumption.
    rewrite matches_glob_outside, andb_false_r by exact Hpre. reflexivity.
  - intros q Hpre. rewrite Hfiles3, copied_entries_dir by exact Hbackend.
    rewrite bool_decide_true by exact Hpre.
    destruct (fs build_stage !! q) as [x|] eqn:Hq; [reflexivity|].
    assert (Hne : q <> dir) by congruence.
    rewrite Hbelow by assumption.
    rewrite bool_decide_false; [reflexivity|]. apply below_not_parent. exact Hpre.
Qed.

End BuildFacts.

Lemma example_base_well_formed : Build.well_formed (Build.fs Build.example_base).
Proof. unfold Build.well_formed. compute_done. Defined.

Lemma example_base_no_hidden :
  Build.no_hidden_entries (Build.backend_dir "fil") (Build.fs Build.example_base).
Proof.
  intros name rest Hhidden. apply not_elem_of_list_to_map_1. cbn. intros Hin.
  repeat (apply elem_of_cons in Hin as [Hin|Hin]; [try discriminate Hin|]).
  - injection Hin as -> _. discriminate Hhidden.
  - apply elem_of_nil in Hin. exact Hin.
Defined.

Lemma final_stage_changes_witness :
  exists final : Build.image,
    Build.final_stage Build.example_args Build.example_base Build.example_build_stage
    = Build.Built final
    /\ Build.env final = <["BACKEND_NAME" := "fil"]> (Build.env Build.example_base)
    /\ Build.fs final !! ["models"] = Some Build.Dir.
Proof.
  destruct (final_stage_changes Build.example_args Build.example_base
              Build.example_build_stage "fil")
    as (final & Hfinal & Henv & Hmodels & _).
  - vm_compute. reflexivity.
  - reflexivity.
  - exact example_base_well_formed.
  - exact example_base_no_hidden.
  - vm_compute. reflexivity.
  - vm_compute. reflexivity.
  - vm_compute. reflexivity.
  - vm_compute. reflexivity.
  - exists final. repeat split; assumption.
Defined.

(** C7 as stated fails: the final image differs from the base image in its
    environment too, where BACKEND_NAME is set. *)
Lemma final_stage_sets_env :
  Build.final_stage Build.example_args Build.example_base Build.example_build_stage
  = Build.Built Build.example_final
  /\ Build.env Build.example_base !! "BACKEND_NAME" = None
  /\ Build.env Build.example_final !! "BACKEND_NAME" = Some "fil"
  /\ Build.env Build.example_final <> Build.env Build.example_base.
Proof.
  split; [vm_compute; reflexivity|].
  split; [vm_compute; reflexivity|].
  split; [vm_compute; reflexivity|].
  intros Henv. apply (f_equal (fun e => e !! "BACKEND_NAME")) in Henv.
  vm_compute in Henv. discriminate Henv.
Qed.

(** ** Batching: sizes of the chunks, errors, and inference in batches *)

Section BatchingShape.

Import Batching BatchedInference.
Context {row out : Type}.
Implicit Types (ary arr : list row) (sizes : list Z).

Lemma slice_length ary st en :
  0 <= st <= en -> en <= Z.of_nat (length ary) ->
  Z.of_nat (length (slice ary st en)) = en - st.
Proof.
  intros Hst Hen. unfold slice. rewrite length_drop, length_take. lia.
Qed.

Lemma chunks_from_lengths ary off sizes :
  0 <= off -> Forall (fun s => 0 <= s) sizes ->
  off + foldr Z.add 0 sizes <= Z.of_nat (length ary) ->
  map (fun chunk => Z.of_nat (length chunk)) (chunks_from ary off sizes) = sizes.
Proof.
  intros Hoff Hs. revert off Hoff.
  induction Hs as [|s sizes Hs0 Hs IH]; intros off Hoff Hsum; [reflexivity|].
  cbn [chunks_from map foldr] in *.
  assert (0 <= foldr Z.add 0 sizes) by (clear -Hs; induction Hs; cbn; lia).
  f_equal.
  - rewrite slice_length by lia. lia.
  - apply IH; lia.
Qed.

Lemma part_sizes_nonneg Ntotal Nsections :
  0 < Nsections -> 0 <= Ntotal ->
  Forall (fun s => 0 <= s) (part_sizes Ntotal Nsections).
Proof.
  intros Hk Hn. unfold part_sizes.
  assert (0 <= Ntotal / Nsections) by (apply Z.div_pos; lia).
  apply Forall_app. split; apply Forall_replicate; lia.
Qed.

Lemma sections_pos max_batch_size n : 0 < sections max_batch_size n.
Proof. unfold sections, GPU_COUNT. lia. Qed.

Lemma create_batches_lengths max_batch_size arr :
  max_batch_size <> 0 ->
  exists batches : list (list row),
    create_batches max_batch_size arr = Ok batches
    /\ map (fun chunk => Z.of_nat (length chunk)) batches
       = part_sizes (Z.of_nat (length arr))
           (sections max_batch_size (Z.of_nat (length arr))).
Proof.
  intros Hm. eexists. split; [apply create_batches_chunks; exact Hm|].
  fold (sections max_batch_size (Z.of_nat (length arr))).
  pose proof (sections_pos max_batch_size (Z.of_nat (length arr))) as Hk.
  apply chunks_from_lengths; [lia | apply part_sizes_nonneg; lia |].
  rewrite part_sizes_sum by exact Hk. lia.
Qed.

Lemma create_batches_concat_eq max_batch_size arr :
  max_batch_size <> 0 ->
  exists batches : list (list row),
    create_batches max_batch_size arr = Ok batches
    /\ concat batches = arr /\ batches <> [].
Proof.
  intros Hm. eexists. split; [apply create_batches_chunks; exact Hm|].
  fold (sections max_batch_size (Z.of_nat (length arr))).
  pose proof (sections_pos max_batch_size (Z.of_nat (length arr))) as Hk.
  split.
  - rewrite concat_chunks_from by (try apply part_sizes_nonneg; lia).
    rewrite part_sizes_sum by exact Hk. apply slice_all.
  - intros Hnil. apply (f_equal length) in Hnil.
    rewrite length_chunks_from, part_sizes_length in Hnil by exact Hk.
    cbn in Hnil. lia.
Qed.

(** X1: The chunks are balanced: [create_batches] returns [k = max(GPU_COUNT,
    chunks)] chunks, the first [n mod k] of [n // k + 1] rows and the others
    of [n // k] rows. *)
Theorem create_batches_balanced (max_batch_size : Z) (arr : list row) :
  max_batch_size <> 0 ->
  let n := Z.of_nat (length arr) in
  let k := sections max_batch_size n in
  exists batches : list (list row),
    create_batches max_batch_size arr = Ok batches
    /\ Z.of_nat (length batches) = k
    /\ map (fun chunk => Z.of_nat (length chunk)) batches
       = replicate (Z.to_nat (n mod k)) (n / k + 1)
         ++ replicate (Z.to_nat (k - n mod k)) (n / k).
Proof.
  intros Hm n k.
  destruct (create_batches_lengths max_batch_size arr Hm) as (batches & Hrun & Hlen).
  exists batches. split; [exact Hrun|]. split; [|exact Hlen].
  apply (f_equal length) in Hlen.
  rewrite length_map, part_sizes_length in Hlen by apply sections_pos.
  fold n in Hlen. fold k in Hlen. pose proof (sections_pos max_batch_size n). lia.
Qed.

(** X2: [create_batches] raises only when [max_batch_size] is zero, and then it
    is the division that raises; [array_split] never rejects the number of
    sections. *)
Theorem create_batches_raises (max_batch_size : Z) (arr : list row) (e : exn) :
  create_batches max_batch_size arr = Raise e
  <-> max_batch_size = 0 /\ e = ZeroDivisionError.
Proof.
  split.
  - intros Hraise. destruct (decide (max_batch_size = 0)) as [->|Hm].
    + split; [reflexivity|].
      unfold create_batches, chunk_count, floordiv in Hraise.
      destruct (decide (0 = 0)); [|contradiction]. cbn [bind] in Hraise. congruence.
    + rewrite create_batches_chunks in Hraise by exact Hm. discriminate.
  - intros [-> ->]. reflexivity.
Qed.

(** X3: With at least [GPU_COUNT] rows no chunk is empty; with fewer rows there
    are [GPU_COUNT] chunks, one row each as far as the rows go and empty
    after that. *)
Theorem create_batches_empty_chunks (max_batch_size : Z) (arr : list row) :
  1 <= max_batch_size ->
  let n := Z.of_nat (length arr) in
  exists batches : list (list row),
    create_batches max_batch_size arr = Ok batches
    /\ (GPU_COUNT <= n -> Forall (fun chunk => chunk <> []) batches)
    /\ (n < GPU_COUNT ->
        map (fun chunk => Z.of_nat (length chunk)) batches
        = replicate (Z.to_nat n) 1 ++ replicate (Z.to_nat (GPU_COUNT - n)) 0).
Proof.
  intros Hm n.
  destruct (create_batches_lengths max_batch_size arr ltac:(lia))
    as (batches & Hrun & Hlen).
  fold n in Hlen. exists batches. split; [exact Hrun|].
  assert (Hn : 0 <= n) by (unfold n; lia).
  pose proof (Z.div_mod n max_batch_size ltac:(lia)) as Hdm.
  pose proof (Z.mod_pos_bound n max_batch_size ltac:(lia)) as Hr.
  assert (Hq : 0 <= n / max_batch_size) by (apply Z.div_pos; lia).
  split.
  - intros Hrows.
    assert (Hk : 0 < sections max_batch_size n <= n).
    { unfold sections, GPU_COUNT in *.
      destruct (Z.eqb_spec (n mod max_batch_size) 0);
        destruct (Z.ltb_spec n max_batch_size); cbn [negb orb]; nia. }
    assert (Hsizes : Forall (fun s => 1 <= s) (part_sizes n (sections max_batch_size n))).
    { assert (1 <= n / sections max_batch_size n).
      { apply Z.div_le_lower_bound; lia. }
      unfold part_sizes. apply Forall_app. split; apply Forall_replicate; lia. }
    rewrite <- Hlen in Hsizes. apply (proj1 (List.Forall_map _ _ _)) in Hsizes.
    eapply Forall_impl; [exact Hsizes|]. cbn. intros chunk Hc ->. cbn in Hc. lia.
  - intros Hrows. rewrite Hlen.
    assert (Hk : sections max_batch_size n = GPU_COUNT).
    { unfold sections, GPU_COUNT in *.
      destruct (Z.eqb_spec (n mod max_batch_size) 0);
        destruct (Z.ltb_spec n max_batch_size); cbn [negb orb]; nia. }
    rewrite Hk. unfold part_sizes, GPU_COUNT in *.
    rewrite Z.div_small, Z.mod_small by lia. reflexivity.
Qed.

Lemma predict_each_rowwise (f : row -> out) (triton_predict : list row -> result (list out))
    (chunks : list (list row)) :
  (forall chunk, triton_predict chunk = Ok (map f chunk)) ->
  predict_each triton_predict chunks = Ok (map (map f) chunks).
Proof.
  intros Hserver. induction chunks as [|chunk chunks IH]; [reflexivity|].
  cbn [predict_each map]. rewrite Hserver, IH. reflexivity.
Qed.

(** X4: For a [max_batch_size] other than 0, when the server answers every
    request row by row, predicting in batches gives what one request for the
    whole array would give. *)
Theorem predict_in_batches_rowwise (f : row -> out)
    (triton_predict : list row -> result (list out))
    (max_batch_size : Z) (np_data : list row) :
  max_batch_size <> 0 ->
  (forall chunk, triton_predict chunk = Ok (map f chunk)) ->
  predict_in_batches triton_predict max_batch_size np_data = Ok (map f np_data).
Proof.
  intros Hm Hserver. unfold predict_in_batches.
  destruct (create_batches_concat_eq max_batch_size np_data Hm)
    as (batches & -> & Hconcat & Hne).
  cbn [bind]. rewrite (predict_each_rowwise f) by exact Hserver. cbn [bind].
  unfold np_concatenate. destruct batches as [|chunk batches]; [contradiction|].
  cbn [map]. f_equal. rewrite <- Hconcat.
  change (map f chunk :: map (map f) batches) with (map (map f) (chunk :: batches)).
  symmetry. apply concat_map.
Qed.

(** X5: For a [max_batch_size] other than 0, when the server fails every
    request, the cell raises the server's exception: a request is sent even
    for an array without rows. *)
Theorem predict_in_batches_server_down (e : exn)
    (triton_predict : list row -> result (list out))
    (max_batch_size : Z) (np_data : list row) :
  max_batch_size <> 0 ->
  (forall chunk, triton_predict chunk = Raise e) ->
  predict_in_batches triton_predict max_batch_size np_data = Raise e.
Proof.
  intros Hm Hserver. unfold predict_in_batches.
  destruct (create_batches_concat_eq max_batch_size np_data Hm)
    as (batches & -> & _ & Hne).
  cbn [bind]. destruct batches as [|chunk batches]; [contradiction|].
  cbn [predict_each]. rewrite Hserver. reflexivity.
Qed.

End BatchingShape.

Lemma create_batches_balanced_witness :
  exists batches : list (list nat),
    Batching.create_batches 3 (seq 0 10) = Ok batches
    /\ Z.of_nat (length batches) = 8
    /\ map (fun chunk => Z.of_nat (length chunk)) batches = [2; 2; 1; 1; 1; 1; 1; 1].
Proof. apply (create_batches_balanced 3 (seq 0 10)). lia. Defined.

Lemma create_batches_empty_chunks_witness :
  exists batches : list (list nat),
    Batching.create_batches 2 [10; 20; 30]%nat = Ok batches
    /\ (Batching.GPU_COUNT <= 3 -> Forall (fun chunk => chunk <> []) batches)
    /\ (3 < Batching.GPU_COUNT ->
        map (fun chunk => Z.of_nat (length chunk)) batches = [1; 1; 1; 0; 0; 0; 0; 0]).
Proof. apply (create_batches_empty_chunks 2 [10; 20; 30]%nat). lia. Defined.

Lemma predict_in_batches_rowwise_witness :
  BatchedInference.predict_in_batches (fun chunk => Ok (map S chunk)) 2 [10; 20; 30]%nat
  = Ok [11; 21; 31]%nat.
Proof.
  apply (predict_in_batches_rowwise S (fun chunk => Ok (map S chunk)) 2 [10; 20; 30]%nat).
  - lia.
  - reflexivity.
Defined.

Lemma predict_in_batches_server_down_witness :
  BatchedInference.predict_in_batches
    (fun _ : list nat => @Raise (list nat) InferenceServerException) 2 [10; 20; 30]%nat
  = Raise InferenceServerException.
Proof.
  apply (predict_in_batches_server_down InferenceServerException
           (fun _ => Raise InferenceServerException) 2 [10; 20; 30]%nat).
  - lia.
  - reflexivity.
Defined.

(** ** Waiting for the server: how the loop ends *)

Section ReadinessExits.

Import Readiness.

Lemma loop_body_Break w i :
  loop_body w i = Break ->
  is_server_ready w i = Ok true
  \/ (is_server_ready w i = Ok false /\ (TIMEOUT < elapsed w i)%Q).
Proof.
  unfold loop_body, loop_condition.
  destruct (is_server_ready w i) as [[|]|e]; cbn [bind].
  - intros _. left. reflexivity.
  - destruct (Qle_bool (elapsed w i) TIMEOUT) eqn:Hle; cbn [negb]; [discriminate|].
    intros _. right. split; [reflexivity|].
    apply Qnot_le_lt. intros Hq. apply Qle_bool_iff in Hq. congruence.
  - destruct e; discriminate.
Qed.

Lemma loop_body_Continue w i :
  loop_body w i = Continue ->
  is_server_ready w i = Raise InferenceServerException
  \/ (is_server_ready w i = Ok false /\ (elapsed w i <= TIMEOUT)%Q).
Proof.
  unfold loop_body, loop_condition.
  destruct (is_server_ready w i) as [[|]|e]; cbn [bind].
  - discriminate.
  - destruct (Qle_bool (elapsed w i) TIMEOUT) eqn:Hle; cbn [negb]; [|discriminate].
    intros _. right. split; [reflexivity|]. apply Qle_bool_iff. exact Hle.
  - destruct e; try discriminate. intros _. left. reflexivity.
Qed.

Lemma loop_body_Propagate w i e :
  loop_body w i = Propagate e ->
  is_server_ready w i = Raise e /\ e <> InferenceServerException.
Proof.
  unfold loop_body, loop_condition.
  destruct (is_server_ready w i) as [[|]|e']; cbn [bind].
  - discriminate.
  - destruct (negb _); discriminate.
  - destruct e'; intros [= <-]; split; (reflexivity || discriminate).
Qed.

Lemma wait_loop_Proceeds_from w fuel i k :
  wait_loop w fuel i = Some (Proceeds k) ->
  (i <= k)%nat /\ loop_body w k = Break
  /\ forall j, (i <= j < k)%nat -> loop_body w j = Continue.
Proof.
  revert i. induction fuel as [|fuel IH]; intros i Hrun; [discriminate|].
  cbn [wait_loop] in Hrun. destruct (loop_body w i) eqn:Hbody.
  - injection Hrun as <-. split; [lia|]. split; [exact Hbody|]. intros j Hj. lia.
  - apply IH in Hrun as (Hle & Hbreak & Hcont).
    split; [lia|]. split; [exact Hbreak|]. intros j Hj.
    destruct (decide (j = i)) as [->|Hne]; [exact Hbody | apply Hcont; lia].
  - discriminate.
Qed.

(** X8: The loop proceeds only when the server is ready or the timeout has
    elapsed: in the iteration that breaks, the probe reported the server
    ready, or it reported it not ready more than [TIMEOUT] seconds after the
    start; in every iteration before, the probe raised
    [InferenceServerException] or reported the server not ready within the
    timeout. *)
Theorem wait_loop_proceeds_when (w : world) (fuel k : nat) :
  wait_loop w fuel 0 = Some (Proceeds k) ->
  (is_server_ready w k = Ok true
   \/ (is_server_ready w k = Ok false /\ (TIMEOUT < elapsed w k)%Q))
  /\ forall j, (j < k)%nat ->
       is_server_ready w j = Raise InferenceServerException
       \/ (is_server_ready w j = Ok false /\ (elapsed w j <= TIMEOUT)%Q).
Proof.
  intros Hrun. apply wait_loop_Proceeds_from in Hrun as (_ & Hbreak & Hcont).
  split; [apply loop_body_Break; exact Hbreak|].
  intros j Hj. apply loop_body_Continue, Hcont. lia.
Qed.

(** X9: The loop never lets an [InferenceServerException] out; the only way it
    fails is with another exception of a probe. *)
Theorem wait_loop_fails_when (w : world) (fuel : nat) (e : exn) :
  wait_loop w fuel 0 = Some (Fails e) ->
  e <> InferenceServerException /\ exists k, is_server_ready w k = Raise e.
Proof.
  generalize 0%nat as i. induction fuel as [|fuel IH]; intros i Hrun; [discriminate|].
  cbn [wait_loop] in Hrun. destruct (loop_body w i) eqn:Hbody.
  - discriminate.
  - apply IH with (S i). exact Hrun.
  - injection Hrun as ->. apply loop_body_Propagate in Hbody as [Hprobe Hne]. eauto.
Qed.

(** X10: The server is found ready as soon as it is: when a probe reports the
    server ready and no earlier iteration ended the loop with an exception,
    the loop proceeds in that iteration or in an earlier one. *)
Theorem wait_loop_ready (w : world) (k : nat) :
  is_server_ready w k = Ok true ->
  (forall j e, (j < k)%nat -> is_server_ready w j = Raise e -> e = InferenceServerException) ->
  exists k', (k' <= k)%nat /\ wait_loop w (S k) 0 = Some (Proceeds k').
Proof.
  intros Hready Hquiet.
  assert (Hgen : forall n i, (i + n = k)%nat ->
            exists k', (k' <= k)%nat /\ wait_loop w (S n) i = Some (Proceeds k')).
  { induction n as [|n IH]; intros i Hi.
    - exists i. split; [lia|]. cbn [wait_loop]. unfold loop_body, loop_condition.
      replace i with k by lia. rewrite Hready. reflexivity.
    - cbn [wait_loop]. destruct (loop_body w i) eqn:Hbody.
      + exists i. split; [lia | reflexivity].
      + apply IH. lia.
      + apply loop_body_Propagate in Hbody as [Hprobe Hne].
        exfalso. apply Hne. apply (Hquiet i); [lia | exact Hprobe]. }
  apply Hgen. lia.
Qed.

End ReadinessExits.

Lemma starting_server_proceeds :
  Readiness.wait_loop Readiness.starting_server 10 0 = Some (Readiness.Proceeds 5).
Proof. reflexivity. Defined.

Lemma wait_loop_proceeds_when_witness :
  (Readiness.is_server_ready Readiness.starting_server 5 = Ok true
   \/ (Readiness.is_server_ready Readiness.starting_server 5 = Ok false
       /\ (Readiness.TIMEOUT < Readiness.elapsed Readiness.starting_server 5)%Q))
  /\ forall j, (j < 5)%nat ->
       Readiness.is_server_ready Readiness.starting_server j
       = Raise InferenceServerException
       \/ (Readiness.is_server_ready Readiness.starting_server j = Ok false
           /\ (Readiness.elapsed Readiness.starting_server j <= Readiness.TIMEOUT)%Q).
Proof.
  apply (wait_loop_proceeds_when Readiness.starting_server 10 5). reflexivity.
Defined.

Lemma wait_loop_ready_witness :
  exists k', (k' <= 5)%nat
    /\ Readiness.wait_loop Readiness.starting_server 6 0 = Some (Readiness.Proceeds k').
Proof.
  apply (wait_loop_ready Readiness.starting_server 5); [reflexivity|].
  intros j e Hj Hprobe.
  cbv [Readiness.is_server_ready Readiness.starting_server] in Hprobe.
  destruct (j <? 5)%nat;
    [injection Hprobe as <-; reflexivity | discriminate Hprobe].
Defined.

Lemma wait_loop_fails_when_witness :
  ValueError <> InferenceServerException
  /\ exists k, Readiness.is_server_ready Readiness.failing_client k = Raise ValueError.
Proof.
  apply (wait_loop_fails_when Readiness.failing_client 3 ValueError). reflexivity.
Defined.

Lemma busy_server_sleeps : Readiness.sleeps_one_second Readiness.busy_server.
Proof. intros i. cbn. apply Qle_refl. Defined.

Lemma wait_loop_terminates_within_timeout_witness :
  exists r, Readiness.wait_loop Readiness.busy_server 62 0 = Some r.
Proof.
  apply (wait_loop_terminates_within_timeout Readiness.busy_server).
  - exact busy_server_sleeps.
  - discriminate.
Defined.

(** ** The memory budget *)

Section MemoryBudget.

Import Batching Deploy.
Context {row : Type}.

(** X6: [max_batch_size] is the largest number of samples whose input and output
    values, four bytes each, fit into [MAX_MEMORY_BYTES]; the cell raises
    exactly when a sample has no values at all. *)
Theorem max_batch_size_fits (features num_classes : Z) :
  0 <= features -> 0 <= num_classes ->
  let bytes_per_sample := (features + num_classes) * 4 in
  (features + num_classes = 0
   -> max_batch_size features num_classes = Raise ZeroDivisionError)
  /\ (0 < features + num_classes ->
      exists mbs : Z,
        max_batch_size features num_classes = Ok mbs
        /\ 0 <= mbs
        /\ mbs * bytes_per_sample <= MAX_MEMORY_BYTES
        /\ MAX_MEMORY_BYTES < (mbs + 1) * bytes_per_sample).
Proof.
  intros Hf Hc bytes_per_sample. unfold max_batch_size, floordiv. fold bytes_per_sample.
  split.
  - intros Hzero. destruct (decide (bytes_per_sample = 0)) as [_|Hne]; [reflexivity|].
    unfold bytes_per_sample in Hne. lia.
  - intros Hpos. destruct (decide (bytes_per_sample = 0)) as [Hz|_].
    + unfold bytes_per_sample in Hz. lia.
    + eexists. split; [reflexivity|].
      assert (Hb : 0 < bytes_per_sample) by (unfold bytes_per_sample; lia).
      pose proof (Z.div_mod MAX_MEMORY_BYTES bytes_per_sample ltac:(lia)) as Hdm.
      pose proof (Z.mod_pos_bound MAX_MEMORY_BYTES bytes_per_sample Hb) as Hr.
      assert (0 <= MAX_MEMORY_BYTES / bytes_per_sample)
        by (apply Z.div_pos; [unfold MAX_MEMORY_BYTES|]; lia).
      nia.
Qed.

(** X7: With the notebook's [max_batch_size], the samples of every chunk of
    [create_batches] fit into [MAX_MEMORY_BYTES], provided a single sample
    does. *)
Theorem create_batches_within_budget (features num_classes : Z) (arr : list row) :
  let bytes_per_sample := (features + num_classes) * 4 in
  0 < bytes_per_sample <= MAX_MEMORY_BYTES ->
  exists (mbs : Z) (batches : list (list row)),
    max_batch_size features num_classes = Ok mbs
    /\ create_batches mbs arr = Ok batches
    /\ Forall (fun chunk => Z.of_nat (length chunk) * bytes_per_sample
                            <= MAX_MEMORY_BYTES) batches.
Proof.
  intros bytes_per_sample [Hpos Hfit].
  unfold max_batch_size, floordiv. fold bytes_per_sample.
  destruct (decide (bytes_per_sample = 0)) as [Hz|_]; [lia|].
  set (mbs := MAX_MEMORY_BYTES / bytes_per_sample).
  pose proof (Z.div_mod MAX_MEMORY_BYTES bytes_per_sample ltac:(lia)) as Hdm.
  pose proof (Z.mod_pos_bound MAX_MEMORY_BYTES bytes_per_sample Hpos) as Hr.
  fold mbs in Hdm.
  assert (Hmbs : 1 <= mbs).
  { unfold mbs. apply Z.div_le_lower_bound; lia. }
  exists mbs. eexists. split; [reflexivity|].
  split; [apply create_batches_chunks; lia|].
  set (n := Z.of_nat (length arr)).
  set (k := Z.max GPU_COUNT _).
  assert (Hk : 0 < k) by (unfold k, GPU_COUNT; lia).
  assert (Hcover : n <= k * mbs).
  { pose proof (chunk_count_covers mbs n ltac:(lia) ltac:(unfold n; lia)).
    unfold k. nia. }
  assert (Hbound : Forall (fun chunk : list row => Z.of_nat (length chunk) <= mbs)
                     (chunks_from arr 0 (part_sizes n k))).
  { apply chunks_from_bounded; [lia|].
    apply part_sizes_bounded; [exact Hk | unfold n; lia | exact Hcover]. }
  eapply Forall_impl; [exact Hbound|]. cbn. intros chunk Hchunk. nia.
Qed.

End MemoryBudget.

Lemma max_batch_size_fits_witness :
  (393 + 2 = 0 -> Deploy.max_batch_size 393 2 = Raise ZeroDivisionError)
  /\ (0 < 393 + 2 ->
      exists mbs : Z,
        Deploy.max_batch_size 393 2 = Ok mbs
        /\ 0 <= mbs
        /\ mbs * ((393 + 2) * 4) <= Deploy.MAX_MEMORY_BYTES
        /\ Deploy.MAX_MEMORY_BYTES < (mbs + 1) * ((393 + 2) * 4)).
Proof. apply (max_batch_size_fits 393 2); lia. Defined.

Lemma create_batches_within_budget_witness :
  exists (mbs : Z) (batches : list (list nat)),
    Deploy.max_batch_size 393 2 = Ok mbs
    /\ Batching.create_batches mbs [10; 20; 30]%nat = Ok batches
    /\ Forall (fun chunk => Z.of_nat (length chunk) * ((393 + 2) * 4)
                            <= Deploy.MAX_MEMORY_BYTES) batches.
Proof.
  apply (create_batches_within_budget 393 2 [10; 20; 30]%nat).
  unfold Deploy.MAX_MEMORY_BYTES. lia.
Defined.

(** ** The repository: absolute names and the deployment cells *)

Section RepositoryFacts.

Import Str Deploy.
Context {model : Type}.
Implicit Types (cwd model_name : string).

Lemma separator_after_version_dir (dir : string) :
  separator_after (dir +:+ "1") = "/".
Proof.
  unfold separator_after.
  rewrite eqb_append_nonempty, endswith_char_append by discriminate. reflexivity.
Qed.


(** [serialize_model] for a plain name: not empty, with no slash at either
    end. *)
Lemma serialize_model_plain cwd (m : model) model_name :
  startswith "/" model_name = false ->
  String.eqb model_name EmptyString || endswith_char "/" model_name = false ->
  serialize_model cwd m model_name
  = (REPO_PATH cwd +:+ "/" +:+ model_name,
     [ Makedirs (REPO_PATH cwd +:+ "/" +:+ model_name +:+ "/1") true;
       SaveModel m (REPO_PATH cwd +:+ "/" +:+ model_name +:+ "/1/xgboost.json") ]).
Proof.
  intros Hrel Hplain. unfold serialize_model.
  rewrite (os_path_join_relative (REPO_PATH cwd)) by exact Hrel.
  rewrite separator_after_REPO_PATH.
  rewrite (os_path_join_relative _ "1") by reflexivity.
  assert (Hsep : separator_after (REPO_PATH cwd +:+ "/" +:+ model_name) = "/").
  { rewrite <- append_assoc, separator_after_dir, Hplain. reflexivity. }
  rewrite Hsep.
  rewrite (os_path_join_relative _ "xgboost.json") by reflexivity.
  replace ((REPO_PATH cwd +:+ "/" +:+ model_name) +:+ "/" +:+ "1")
    with ((REPO_PATH cwd +:+ "/" +:+ model_name +:+ "/") +:+ "1")
    by (rewrite !append_assoc; reflexivity).
  rewrite separator_after_version_dir, !append_assoc. reflexivity.
Qed.

Lemma generate_config_plain (mbs features num_classes : Z) cwd model_name
    (deployment_type storage_type : string) :
  String.eqb model_name EmptyString || endswith_char "/" model_name = false ->
  generate_config (model := model) mbs features num_classes
    (REPO_PATH cwd +:+ "/" +:+ model_name) deployment_type storage_type
  = (REPO_PATH cwd +:+ "/" +:+ model_name +:+ "/config.pbtxt",
     [ WriteFile (REPO_PATH cwd +:+ "/" +:+ model_name +:+ "/config.pbtxt")
         (config_text mbs features num_classes deployment_type storage_type) ]).
Proof.
  intros Hplain. unfold generate_config.
  rewrite os_path_join_relative by reflexivity.
  assert (Hsep : separator_after (REPO_PATH cwd +:+ "/" +:+ model_name) = "/").
  { rewrite <- append_assoc, separator_after_dir, Hplain. reflexivity. }
  rewrite Hsep, !append_assoc. reflexivity.
Qed.

(** Where a GPU instance group can be in the text; compare
    [contains_cpu_group]. *)
Lemma contains_gpu_group (mbs features num_classes : Z)
    (deployment_type storage_type : string) :
  contains (instance_group_of "KIND_GPU")
    (config_text mbs features num_classes deployment_type storage_type)
  = negb (String.eqb (lower deployment_type) "cpu")
    || contains (instance_group_of "KIND_GPU") storage_type.
Proof.
  set (needle := instance_group_of "KIND_GPU").
  assert (Hn : needle <> EmptyString) by discriminate.
  assert (Hnum : forall (z : Z) c, occurs c (pretty z) = true -> occurs c needle = false).
  { intros z c. apply pretty_Z_foreign. reflexivity. }
  unfold config_text. rewrite contains_unlines; [|exact Hn|reflexivity].
  unfold config_lines. cbn [existsb].
  rewrite (contains_foreign_end needle _ (pretty mbs))
    by first [exact Hn | apply pretty_Z_nonempty | apply Hnum].
  rewrite !(contains_foreign_middle needle _ (pretty _))
    by first [exact Hn | apply pretty_Z_nonempty | apply Hnum].
  rewrite (contains_quoted needle _ storage_type) by (exact Hn || reflexivity).
  unfold instance_kind.
  destruct (String.eqb (lower deployment_type) "cpu");
    destruct (contains needle storage_type); vm_compute; reflexivity.
Qed.

(** X13: The deployment cells write eight files, four models and four
    configurations, to eight different paths below [REPO_PATH]; the GPU and
    the CPU copy of a model are the same model, and the '-cpu' copies are the
    ones configured for the CPU. *)
Theorem deployment_cells_files cwd (small_model large_model : model)
    (mbs features num_classes : Z) :
  let repo := REPO_PATH cwd in
  let config := config_text mbs features num_classes in
  deployment_cells cwd small_model large_model mbs features num_classes
  = [ Makedirs repo true;
      Makedirs (repo +:+ "/small_model/1") true;
      SaveModel small_model (repo +:+ "/small_model/1/xgboost.json");
      Makedirs (repo +:+ "/small_model-cpu/1") true;
      SaveModel small_model (repo +:+ "/small_model-cpu/1/xgboost.json");
      Makedirs (repo +:+ "/large_model/1") true;
      SaveModel large_model (repo +:+ "/large_model/1/xgboost.json");
      Makedirs (repo +:+ "/large_model-cpu/1") true;
      SaveModel large_model (repo +:+ "/large_model-cpu/1/xgboost.json");
      WriteFile (repo +:+ "/small_model/config.pbtxt") (config "gpu" "AUTO");
      WriteFile (repo +:+ "/small_model-cpu/config.pbtxt") (config "cpu" "AUTO");
      WriteFile (repo +:+ "/large_model/config.pbtxt") (config "gpu" "AUTO");
      WriteFile (repo +:+ "/large_model-cpu/config.pbtxt") (config "cpu" "AUTO") ]
  /\ NoDup (omap written_file
              (deployment_cells cwd small_model large_model mbs features num_classes))
  /\ contains (instance_group_of "KIND_GPU") (config "gpu" "AUTO") = true
  /\ contains (instance_group_of "KIND_CPU") (config "gpu" "AUTO") = false
  /\ contains (instance_group_of "KIND_CPU") (config "cpu" "AUTO") = true
  /\ contains (instance_group_of "KIND_GPU") (config "cpu" "AUTO") = false.
Proof.
  intros repo config.
  assert (Hcells : deployment_cells cwd small_model large_model mbs features num_classes
                   = [ Makedirs repo true;
      Makedirs (repo +:+ "/small_model/1") true;
      SaveModel small_model (repo +:+ "/small_model/1/xgboost.json");
      Makedirs (repo +:+ "/small_model-cpu/1") true;
      SaveModel small_model (repo +:+ "/small_model-cpu/1/xgboost.json");
      Makedirs (repo +:+ "/large_model/1") true;
      SaveModel large_model (repo +:+ "/large_model/1/xgboost.json");
      Makedirs (repo +:+ "/large_model-cpu/1") true;
      SaveModel large_model (repo +:+ "/large_model-cpu/1/xgboost.json");
      WriteFile (repo +:+ "/small_model/config.pbtxt") (config "gpu" "AUTO");
      WriteFile (repo +:+ "/small_model-cpu/config.pbtxt") (config "cpu" "AUTO");
      WriteFile (repo +:+ "/large_model/config.pbtxt") (config "gpu" "AUTO");
      WriteFile (repo +:+ "/large_model-cpu/config.pbtxt") (config "cpu" "AUTO") ]).
  { unfold deployment_cells.
    rewrite !serialize_model_plain by reflexivity.
    rewrite !generate_config_plain by reflexivity. reflexivity. }
  split; [exact Hcells|]. split.
  - rewrite Hcells. cbn [omap list_omap written_file].
    apply (NoDup_fmap_2 (String.append repo)
             [ "/small_model/1/xgboost.json"; "/small_model-cpu/1/xgboost.json";
               "/large_model/1/xgboost.json"; "/large_model-cpu/1/xgboost.json";
               "/small_model/config.pbtxt"; "/small_model-cpu/config.pbtxt";
               "/large_model/config.pbtxt"; "/large_model-cpu/config.pbtxt" ]).
    compute_done.
  - unfold config. rewrite !contains_cpu_group, !contains_gpu_group.
    repeat split.
Qed.

(** X14: A configuration has one kind of instance group: when the storage type
    contains no instance group of either kind, the text contains the GPU
    group exactly when it does not contain the CPU group. *)
Theorem config_text_one_instance_kind (mbs features num_classes : Z)
    (deployment_type storage_type : string) :
  contains (instance_group_of "KIND_CPU") storage_type = false ->
  contains (instance_group_of "KIND_GPU") storage_type = false ->
  let text := config_text mbs features num_classes deployment_type storage_type in
  contains (instance_group_of "KIND_GPU") text
  = negb (contains (instance_group_of "KIND_CPU") text).
Proof.
  intros Hcpu Hgpu text. unfold text.
  rewrite contains_cpu_group, contains_gpu_group, Hcpu, Hgpu, !orb_false_r.
  reflexivity.
Qed.

End RepositoryFacts.


Lemma config_text_one_instance_kind_witness :
  Str.contains (Deploy.instance_group_of "KIND_GPU")
    (Deploy.config_text 37974 393 2 "Cpu" "SPARSE")
  = negb (Str.contains (Deploy.instance_group_of "KIND_CPU")
            (Deploy.config_text 37974 393 2 "Cpu" "SPARSE")).
Proof.
  apply (config_text_one_instance_kind 37974 393 2 "Cpu" "SPARSE"); reflexivity.
Defined.

(** ** Data preparation: shape and repetition *)

Section DataPrepShape.

Import DataPrep.
Context {float64 : Type}.
Variable median : list float64 -> float64.

Implicit Types (data : gmap string (@column float64)) (c : @column float64).



Lemma prepared_no_float_missing c : float_with_missing (prepared median c) = false.
Proof.
  unfold float_with_missing.
  destruct c as [cells|cells|cells|cells]; cbn; try reflexivity;
    destruct (existsb missing cells) eqn:Hmiss; cbn;
    rewrite ?fill_no_missing, ?Hmiss; reflexivity.
Qed.

(** A column the imputer keeps for every column it is given is what the
    assignment needs: as many columns as labels. *)
Lemma omap_same_size {A B : Type} (f : A -> option B) (m : gmap string A) label x :
  size (dom m) = size (omap f m) -> m !! label = Some x -> is_Some (f x).
Proof.
  intros Hsize Hx.
  assert (Hdom : dom (omap f m) = dom m).
  { apply set_subseteq_size_eq; [apply dom_omap_subseteq|].
    rewrite (size_dom (omap f m)). lia. }
  assert (Hin : label ∈ dom (omap f m)).
  { rewrite Hdom. apply elem_of_dom. eauto. }
  apply elem_of_dom in Hin. rewrite lookup_omap, Hx in Hin. exact Hin.
Qed.

(** The step completes only on a table on which it has something to impute
    and a median for it. *)
Lemma impute_cell_Ok_inv data data' :
  impute_cell median data = Ok data' ->
  float_missing_somewhere data /\ medians_exist data.
Proof.
  unfold impute_cell.
  set (sub := select_dtypes_float64 (getitem_columns data (nan_columns data))).
  unfold fit_transform. destruct (decide (sub = ∅)) as [Hempty|Hne]; [discriminate|].
  cbn [bind]. unfold setitem_columns at 1.
  destruct (decide (size (dom sub) = size (omap (impute_column median) sub)))
    as [Hsize|Hsize]; [|discriminate].
  intros _. split.
  - apply map_choose in Hne as (label & c & Hs).
    apply float_nan_subset_spec in Hs as [Hc Hsel]. exists label, c. auto.
  - intros label cells Hc Hmiss Hobs.
    assert (Hs : sub !! label = Some (Float64Column cells)).
    { apply float_nan_subset_spec. split; [exact Hc|].
      unfold float_with_missing. cbn. exact Hmiss. }
    destruct (omap_same_size _ _ _ _ Hsize Hs) as [c' Hc'].
    cbn in Hc'. rewrite Hobs in Hc'. discriminate Hc'.
Qed.


Lemma impute_cell_nothing_to_impute data :
  ~ float_missing_somewhere data -> impute_cell median data = Raise ValueError.
Proof.
  intros Hnone. apply float_nan_subset_empty in Hnone.
  unfold impute_cell. rewrite Hnone. unfold fit_transform.
  destruct (decide (∅ = ∅)) as [_|Hne]; [reflexivity | contradiction].
Qed.

(** X24: On a table in which no float64 column has a missing cell the step
    raises [ValueError], whatever is missing in columns of other dtypes: the
    imputer is given a frame without columns. *)
Theorem data_preparation_without_float_gap data :
  (forall label c, data !! label = Some c -> float_with_missing c = false) ->
  impute_cell median data = Raise ValueError.
Proof.
  intros Hnone. apply impute_cell_nothing_to_impute.
  intros (label & c & Hc & Hsel). rewrite (Hnone label c Hc) in Hsel. discriminate.
Qed.

(** X16: The step cannot be run twice: in the table it returns no float64
    column has a missing cell left, so that on it the step raises
    [ValueError]. *)
Theorem data_preparation_not_repeatable data data' :
  impute_cell median data = Ok data' ->
  impute_cell median data' = Raise ValueError.
Proof.
  intros Hrun. destruct (impute_cell_Ok_inv data data' Hrun) as [Hsome Hmed].
  rewrite impute_cell_prepared in Hrun by assumption. injection Hrun as <-.
  apply impute_cell_nothing_to_impute. intros (label & c & Hc & Hsel).
  rewrite lookup_fmap in Hc. destruct (data !! label) as [c0|]; [|discriminate].
  injection Hc as <-. rewrite prepared_no_float_missing in Hsel. discriminate.
Qed.

End DataPrepShape.


Lemma data_preparation_without_float_gap_witness :
  DataPrep.impute_cell DataPrep.middle DataPrep.unnamed_card_table = Raise ValueError.
Proof.
  apply (data_preparation_without_float_gap DataPrep.middle DataPrep.unnamed_card_table).
  intros label c Hc. unfold DataPrep.unnamed_card_table in Hc.
  apply lookup_insert_Some in Hc as [[_ <-]|[_ Hc]]; [reflexivity|].
  apply lookup_singleton_Some in Hc as [_ <-]. reflexivity.
Defined.

Lemma data_preparation_not_repeatable_witness :
  DataPrep.impute_cell DataPrep.middle DataPrep.flagged_table
  = Ok DataPrep.prepared_flagged_table
  /\ DataPrep.impute_cell DataPrep.middle DataPrep.prepared_flagged_table
     = Raise ValueError.
Proof.
  split; [vm_compute; reflexivity|].
  apply (data_preparation_not_repeatable DataPrep.middle DataPrep.flagged_table
           DataPrep.prepared_flagged_table).
  vm_compute. reflexivity.
Defined.

(** ** Conversion to NumPy: what is returned *)

Section PandasResult.

Import Pandas.
Context {column ndarray : Type}.
Variable is_category : column -> bool.
Variable cat_codes : column -> column.
Variable to_numeric_downcast_float : column -> result column.
Variable values_of : list (string * column) -> ndarray.

Implicit Types (h : gmap nat (list (string * column))) (l : nat).
Implicit Types (d pre rest : list (string * column)) (label col : string).

Lemma frame_get_app_here pre rest label (s : column) :
  label ∉ map fst pre ->
  frame_get (pre ++ (label, s) :: rest) label = Some s.
Proof.
  induction pre as [|[label0 s0] pre IH]; intros Hnotin; cbn.
  - destruct (decide (label = label)); [reflexivity | contradiction].
  - cbn in Hnotin. apply not_elem_of_cons in Hnotin as [Hne Hnotin].
    destruct (decide (label0 = label)); [congruence | apply IH; exact Hnotin].
Qed.

Lemma frame_set_app_here pre rest label (s c : column) :
  label ∉ map fst pre ->
  frame_set (pre ++ (label, s) :: rest) label c = pre ++ (label, c) :: rest.
Proof.
  induction pre as [|[label0 s0] pre IH]; intros Hnotin; cbn.
  - destruct (decide (label = label)); [reflexivity | contradiction].
  - cbn in Hnotin. apply not_elem_of_cons in Hnotin as [Hne Hnotin].
    destruct (decide (label0 = label)); [congruence|].
    f_equal. apply IH. exact Hnotin.
Qed.

Lemma getitem_here l h pre rest label (s : column) :
  label ∉ map fst pre ->
  getitem l label (<[l := pre ++ (label, s) :: rest]> h)
  = (Ok s, <[l := pre ++ (label, s) :: rest]> h).
Proof.
  intros Hnotin. unfold getitem, bindM, deref.
  rewrite lookup_insert_eq, frame_get_app_here by exact Hnotin. reflexivity.
Qed.

Lemma setitem_here l h pre rest label (s c : column) :
  label ∉ map fst pre ->
  setitem l label c (<[l := pre ++ (label, s) :: rest]> h)
  = (Ok tt, <[l := pre ++ (label, c) :: rest]> h).
Proof.
  intros Hnotin. unfold setitem, bindM, deref.
  rewrite lookup_insert_eq, frame_set_app_here, insert_insert_eq by exact Hnotin.
  reflexivity.
Qed.

Lemma NoDup_labels_head pre rest label (s : column) :
  NoDup (map fst (pre ++ (label, s) :: rest)) -> label ∉ map fst pre.
Proof.
  rewrite map_app. cbn. intros Hnodup Hin.
  apply NoDup_app in Hnodup as (_ & Hdisjoint & _).
  apply (Hdisjoint label Hin). left.
Qed.

Lemma labels_snoc pre rest label (s c : column) :
  map fst ((pre ++ [(label, c)]) ++ rest) = map fst (pre ++ (label, s) :: rest).
Proof. rewrite <- app_assoc, !map_app. reflexivity. Qed.

(** The first loop: the codes of the category columns. *)
Lemma codes_loop l h pre rest :
  NoDup (map fst (pre ++ rest)) ->
  for_each (map fst (filter (fun lc => is_category lc.2 = true) rest))
    (fun col => bindM (getitem l col) (fun s => setitem l col (cat_codes s)))
    (<[l := pre ++ rest]> h)
  = (Ok tt, <[l := pre ++ codes_frame is_category cat_codes rest]> h).
Proof.
  revert pre. induction rest as [|[label s] rest IH]; intros pre Hnodup.
  - reflexivity.
  - pose proof (NoDup_labels_head _ _ _ _ Hnodup) as Hnotin.
    rewrite filter_cons. cbn [snd codes_frame map fst].
    destruct (decide (is_category s = true)) as [Hcat|Hcat].
    + cbn [map fst for_each]. unfold bindM at 1. unfold bindM at 1.
      rewrite getitem_here, setitem_here by exact Hnotin.
      rewrite Hcat.
      replace (pre ++ (label, cat_codes s) :: rest)
        with ((pre ++ [(label, cat_codes s)]) ++ rest)
        by (rewrite <- app_assoc; reflexivity).
      rewrite IH by (rewrite (labels_snoc _ _ _ s); exact Hnodup).
      rewrite <- app_assoc. reflexivity.
    + apply not_true_is_false in Hcat. rewrite Hcat.
      replace (pre ++ (label, s) :: rest) with ((pre ++ [(label, s)]) ++ rest)
        by (rewrite <- app_assoc; reflexivity).
      rewrite IH by (rewrite (labels_snoc _ _ _ s); exact Hnodup).
      rewrite <- app_assoc. reflexivity.
Qed.

Lemma for_each_cons_run {A : Type} (x : A) (xs : list A)
    (body : A -> @M column unit) h :
  for_each (x :: xs) body h
  = match body x h with
    | (Ok _, h') => for_each xs body h'
    | (Raise e, h') => (Raise e, h')
    end.
Proof. reflexivity. Qed.

Lemma numeric_body_run l h pre rest label (s : column) :
  label ∉ map fst pre ->
  bindM (getitem l label) (fun s =>
    bindM (lift (to_numeric_downcast_float s)) (fun s' =>
    setitem l label s'))
    (<[l := pre ++ (label, s) :: rest]> h)
  = match to_numeric_downcast_float s with
    | Ok s' => (Ok tt, <[l := pre ++ (label, s') :: rest]> h)
    | Raise e => (Raise e, <[l := pre ++ (label, s) :: rest]> h)
    end.
Proof.
  intros Hnotin. unfold bindM at 1. rewrite getitem_here by exact Hnotin.
  unfold bindM, lift.
  destruct (to_numeric_downcast_float s) as [s'|e]; [|reflexivity].
  apply setitem_here. exact Hnotin.
Qed.

(** The second loop: the numeric downcast, up to the first column that
    cannot be converted. *)
Lemma numeric_loop l h pre rest :
  NoDup (map fst (pre ++ rest)) ->
  let run :=
    for_each (map fst rest)
      (fun col => bindM (getitem l col) (fun s =>
                  bindM (lift (to_numeric_downcast_float s)) (fun s' =>
                  setitem l col s')))
      (<[l := pre ++ rest]> h) in
  match numeric_frame to_numeric_downcast_float rest with
  | Ok rest' => run = (Ok tt, <[l := pre ++ rest']> h)
  | Raise e => run.1 = Raise e
  end.
Proof.
  revert pre. induction rest as [|[label s] rest IH]; intros pre Hnodup run.
  - reflexivity.
  - pose proof (NoDup_labels_head _ _ _ _ Hnodup) as Hnotin.
    subst run. cbn [map fst numeric_frame].
    rewrite for_each_cons_run, numeric_body_run by exact Hnotin.
    destruct (to_numeric_downcast_float s) as [s'|e]; cbn [bind]; [|reflexivity].
    replace (pre ++ (label, s') :: rest) with ((pre ++ [(label, s')]) ++ rest)
      by (rewrite <- app_assoc; reflexivity).
    specialize (IH (pre ++ [(label, s')])).
    rewrite (labels_snoc _ _ _ s) in IH. specialize (IH Hnodup). cbn zeta in IH.
    destruct (numeric_frame to_numeric_downcast_float rest) as [rest'|e]; cbn [bind].
    + rewrite IH, <- app_assoc. reflexivity.
    + exact IH.
Qed.

Lemma codes_frame_labels d :
  map fst (codes_frame is_category cat_codes d) = map fst d.
Proof. unfold codes_frame. rewrite map_map. reflexivity. Qed.

Lemma bindM_run {A B : Type} (m : @M column A) (k : A -> @M column B) h a h' :
  m h = (Ok a, h') -> bindM m k h = k a h'.
Proof. intros Hm. unfold bindM. rewrite Hm. reflexivity. Qed.

Lemma convert_copy_result l h d :
  NoDup (map fst d) ->
  (convert_copy is_category cat_codes to_numeric_downcast_float values_of l
     (<[l := d]> h)).1
  = bind (converted_frame is_category cat_codes to_numeric_downcast_float d)
      (fun d' => Ok (values_of d')).
Proof.
  intros Hnodup. unfold convert_copy, converted_frame.
  set (d1 := codes_frame is_category cat_codes d).
  assert (E1 : category_columns is_category l (<[l := d]> h)
               = (Ok (map fst (filter (fun lc => is_category lc.2 = true) d)),
                  <[l := d]> h)).
  { unfold category_columns, bindM, deref. rewrite lookup_insert_eq. reflexivity. }
  pose proof (codes_loop l h [] d Hnodup) as E2. cbn [app] in E2. fold d1 in E2.
  assert (E3 : columns l (<[l := d1]> h) = (Ok (map fst d1), <[l := d1]> h)).
  { unfold columns, bindM, deref. rewrite lookup_insert_eq. reflexivity. }
  assert (Hnodup1 : NoDup (map fst ([] ++ d1))).
  { cbn [app]. unfold d1. rewrite codes_frame_labels. exact Hnodup. }
  pose proof (numeric_loop l h [] d1 Hnodup1) as E4. cbn [app] in E4. cbn zeta in E4.
  rewrite (bindM_run _ _ _ _ _ E1), (bindM_run _ _ _ _ _ E2), (bindM_run _ _ _ _ _ E3).
  destruct (numeric_frame to_numeric_downcast_float d1) as [d'|e]; cbn [bind].
  - rewrite (bindM_run _ _ _ _ _ E4).
    unfold values, bindM, deref. rewrite lookup_insert_eq. reflexivity.
  - unfold bindM at 1. clear E2.
    destruct (for_each (map fst d1) _ _) as [[[]|e'] h']; cbn in E4 |- *;
      [discriminate E4 | injection E4 as ->; reflexivity].
Qed.

(** X17: For a frame with distinct labels, [convert_to_numpy] returns the values of
    the frame in which every category column has become its codes and every
    column then its numeric downcast, labels and order kept; when a column
    cannot be converted, the exception of the first such column is raised. *)
Theorem convert_to_numpy_result h (df : nat) d :
  h !! df = Some d -> NoDup (map fst d) ->
  (convert_to_numpy is_category cat_codes to_numeric_downcast_float values_of df h).1
  = bind (converted_frame is_category cat_codes to_numeric_downcast_float d)
      (fun d' => Ok (values_of d')).
Proof.
  intros Hd Hnodup.
  rewrite (convert_to_numpy_unfold _ _ _ _ df h d Hd).
  apply convert_copy_result. exact Hnodup.
Qed.

End PandasResult.

Lemma convert_to_numpy_result_witness :
  (Pandas.convert_to_numpy (fun c => c <? 0) Z.opp
     (fun c => if c =? 0 then Raise ValueError else Ok c) (map snd) 0%nat
     ({[ 0%nat := [("TransactionAmt", 68); ("ProductCD", -3)] ]}
        : gmap nat (list (string * Z)))).1
  = Ok [68; 3].
Proof.
  apply (convert_to_numpy_result (fun c => c <? 0) Z.opp
           (fun c => if c =? 0 then Raise ValueError else Ok c) (map snd)
           {[ 0%nat := [("TransactionAmt", 68); ("ProductCD", -3)] ]} 0%nat
           [("TransactionAmt", 68); ("ProductCD", -3)]).
  - reflexivity.
  - compute_done.
Defined.

(** ** The build stages: failure, what the final image takes, stale artifacts *)

Section BuildStages.

Import Str Build.
Implicit Types (files stage : gmap (list string) node) (dir q : list string).
Implicit Types (build_args : gmap string string).
Implicit Types (base build_stage final start cleaned : image).

(** X18: For a plain backend name, the final stage fails exactly when the base
    image already has [/models], when the build stage has nothing at the path
    of the backend directory, or when a regular file of the base image is
    where a directory above the backend directory has to be.  (A copy that
    meets an entry of the other kind is left out of the model; it is not
    counted as a failure here.) *)
Theorem final_stage_fails build_args base build_stage (name : string) :
  final_name build_args base = Some name ->
  plain_name name = true ->
  let dir := backend_dir name in
  final_stage build_args base build_stage = Fails
  <-> is_Some (fs base !! ["models"])
      \/ fs build_stage !! dir = None
      \/ existsb (is_file (fs base)) (parents dir) = true.
Proof.
  intros Hname Hplain dir. unfold final_stage, run_mkdir.
  destruct (fs base !! ["models"]) as [x|] eqn:Hmodels.
  { split; [intros _; left; eauto | reflexivity]. }
  rewrite Hname, Hplain. unfold copy_from. fold dir.
  destruct (fs build_stage !! dir) as [x|].
  2:{ split; [intros _; right; left; reflexivity | reflexivity]. }
  unfold dir. rewrite parents_files_after_rm. fold dir.
  destruct (existsb (is_file (fs base)) (parents dir)).
  { split; [intros _; right; right; reflexivity | reflexivity]. }
  assert (Hnot : ~ (is_Some (None : option node) \/ Some x = None \/ false = true)).
  { intros [[y Hy]|[Hx|Hf]]; discriminate. }
  destruct (is_file (fs build_stage) dir && String.eqb name EmptyString).
  { split; [discriminate | intros H; destruct (Hnot H)]. }
  destruct (compatible _ _); (split; [discriminate | intros H; destruct (Hnot H)]).
Qed.

(** X19: The final image takes nothing from the build stage but what is at and
    below the backend directory: two build stages that agree there give the
    same outcome. *)
Theorem final_stage_only_backend_dir build_args base
    (build_stage1 build_stage2 : image) (name : string) :
  final_name build_args base = Some name ->
  plain_name name = true ->
  (forall q, backend_dir name `prefix_of` q ->
     fs build_stage1 !! q = fs build_stage2 !! q) ->
  final_stage build_args base build_stage1 = final_stage build_args base build_stage2.
Proof.
  intros Hname Hplain Hagree. unfold final_stage.
  destruct (run_mkdir ["models"] (fs base)) as [files1|]; [|reflexivity].
  rewrite Hname, Hplain. unfold copy_from, is_file.
  rewrite (copied_entries_agree _ _ _ Hagree).
  rewrite (Hagree (backend_dir name)) by reflexivity. reflexivity.
Qed.

(** X20: When BACKEND_NAME is neither passed to the build nor set in the base
    image, the backend directory is the directory of all backends: every
    entry of the final image below it that is not hidden is the build
    stage's, so the backends of the base image that the build stage does not
    have are gone. *)
Theorem final_stage_without_backend_name build_args base build_stage final :
  env base !! "BACKEND_NAME" = None ->
  build_args !! "BACKEND_NAME" = None ->
  final_stage build_args base build_stage = Built final ->
  is_dir (fs base) ["opt"; "tritonserver"; "backends"] = true ->
  forall (name : string) (rest : list string),
    startswith "." name = false ->
    fs final !! (["opt"; "tritonserver"; "backends"] ++ name :: rest)
    = fs build_stage !! (["opt"; "tritonserver"; "backends"] ++ name :: rest).
Proof.
  intros Henv Harg Hfinal Hbackends name rest Hvisible.
  apply final_stage_Built in Hfinal as (name0 & Hname & _ & _ & _ & Hcopy).
  unfold final_name in Hname. rewrite Henv, Harg in Hname. cbn in Hname.
  injection Hname as <-.
  change (backend_dir EmptyString) with ["opt"; "tritonserver"; "backends"] in Hcopy.
  set (dir := ["opt"; "tritonserver"; "backends"]) in *.
  set (q := dir ++ name :: rest).
  assert (Hpre : dir `prefix_of` q) by (exists (name :: rest); reflexivity).
  rewrite (copy_from_lookup _ _ _ _ q Hcopy).
  change (backend_dir EmptyString) with dir.
  apply copy_from_Built in Hcopy as ([x Hx] & _ & Hslash & _ & _).
  change (backend_dir EmptyString) with dir in Hx, Hslash.
  assert (Hdir : fs build_stage !! dir = Some Dir).
  { unfold is_file in Hslash. rewrite Hx in Hslash.
    destruct x as [|content]; [exact Hx | discriminate Hslash]. }
  rewrite copied_entries_dir, bool_decide_true by assumption.
  destruct (fs build_stage !! q) as [y|]; [reflexivity|].
  rewrite run_rm_contents_lookup.
  assert (Hisdir : is_dir (<[["models"] := Dir]> (fs base)) dir = true).
  { unfold is_dir in *. rewrite lookup_insert_ne by discriminate. exact Hbackends. }
  unfold q at 1. rewrite matches_glob_below, Hisdir, Hvisible. cbn [andb negb].
  rewrite bool_decide_false; [reflexivity|]. apply below_not_parent. exact Hpre.
Qed.

(** X23: [rm -rf dir/*] does not reach hidden entries: when the final stage
    builds, an entry of the base image in the backend directory whose name
    starts with a dot, and what is below it, is still in the final image
    unless the build stage has an entry at that path. *)
Theorem final_stage_keeps_hidden build_args base build_stage final
    (name hidden : string) (rest : list string) :
  final_stage build_args base build_stage = Built final ->
  final_name build_args base = Some name ->
  startswith "." hidden = true ->
  fs build_stage !! (backend_dir name ++ hidden :: rest) = None ->
  fs final !! (backend_dir name ++ hidden :: rest)
  = fs base !! (backend_dir name ++ hidden :: rest).
Proof.
  intros Hfinal Hname Hhidden Hstage.
  apply final_stage_Built in Hfinal as (name0 & Hname0 & _ & _ & _ & Hcopy).
  assert (name0 = name) by congruence. subst name0.
  set (dir := backend_dir name) in *. set (q := dir ++ hidden :: rest) in *.
  assert (Hpre : dir `prefix_of` q) by (exists (hidden :: rest); reflexivity).
  rewrite (copy_from_lookup _ _ _ _ q Hcopy). fold dir.
  destruct (copied_entries (fs build_stage) dir !! q) as [x|] eqn:Hcopied.
  { apply copied_entries_Some in Hcopied as [_ Hx]. congruence. }
  rewrite run_rm_contents_lookup. unfold q at 1.
  rewrite matches_glob_below, Hhidden. cbn [negb]. rewrite andb_false_r.
  rewrite lookup_insert_ne
    by (intros Heq; exact (backend_dir_not_models name q Hpre (eq_sym Heq))).
  destruct (fs base !! q) as [x|]; [reflexivity|].
  rewrite bool_decide_false; [reflexivity|]. apply below_not_parent. exact Hpre.
Qed.

Lemma run_rm_contents_again dir files :
  run_rm_contents dir (run_rm_contents dir files) = run_rm_contents dir files.
Proof.
  apply map_eq. intros q. rewrite !run_rm_contents_lookup.
  destruct (is_dir files dir && matches_glob dir q) eqn:Hrm.
  - destruct (is_dir (run_rm_contents dir files) dir && matches_glob dir q);
      reflexivity.
  - destruct (is_dir (run_rm_contents dir files) dir && matches_glob dir q) eqn:Hrm2;
      [|reflexivity].
    apply andb_true_iff in Hrm2 as [Hd Hg]. rewrite Hg, andb_true_r in Hrm.
    unfold is_dir in Hd. rewrite run_rm_contents_lookup, Hrm in Hd.
    rewrite matches_glob_self, andb_false_r in Hd. unfold is_dir in Hrm. congruence.
Qed.

Lemma is_dir_after_rm dir files :
  is_dir files dir = true -> is_dir (run_rm_contents dir files) dir = true.
Proof.
  intros Hd. unfold is_dir. rewrite run_rm_contents_lookup.
  rewrite matches_glob_self, andb_false_r. exact Hd.
Qed.

(** X21: When the cleaning step of [build-prep] succeeds on a file system, the
    environment variable BACKEND_NAME is set, the backend directory exists and
    has nothing in it that the shell's [*] matches, and everything outside
    the directory is as before. *)
Theorem build_prep_clean_result build_args start cleaned :
  well_formed (fs start) ->
  build_prep_clean build_args start = Built cleaned ->
  exists name : string,
    build_prep_name build_args start = Some name
    /\ env cleaned = <["BACKEND_NAME" := name]> (env start)
    /\ is_dir (fs cleaned) (backend_dir name) = true
    /\ (forall q, matches_glob (backend_dir name) q = true -> fs cleaned !! q = None)
    /\ (forall q, ~ backend_dir name `prefix_of` q -> fs cleaned !! q = fs start !! q).
Proof.
  intros Hwf Hrun. unfold build_prep_clean in Hrun.
  destruct (build_prep_name build_args start) as [name|]; [|discriminate].
  destruct (plain_name name); [|discriminate].
  exists name. split; [reflexivity|].
  set (dir := backend_dir name) in *.
  destruct (is_dir (fs start) dir) eqn:Hd.
  - injection Hrun as <-. cbn [fs env]. split; [reflexivity|].
    split; [apply is_dir_after_rm; exact Hd|]. split.
    + intros q Hq. rewrite run_rm_contents_lookup, Hd, Hq. reflexivity.
    + intros q Hq. rewrite run_rm_contents_lookup.
      rewrite matches_glob_outside, andb_false_r by exact Hq. reflexivity.
  - destruct (mkdir dir (fs start)) as [files|] eqn:Hmk; [|discriminate].
    injection Hrun as <-. cbn [fs env]. split; [reflexivity|].
    assert (Hfiles : files = <[dir := Dir]> (fs start)).
    { unfold mkdir in Hmk. destruct dir as [|name0 dir0]; [discriminate|].
      destruct (fs start !! (name0 :: dir0)); [discriminate|].
      destruct (bool_decide _ || is_dir (fs start) _); [|discriminate].
      injection Hmk as <-. reflexivity. }
    subst files. split; [|split].
    + unfold is_dir. rewrite lookup_insert_eq. reflexivity.
    + intros q Hq.
      rewrite lookup_insert_ne by (intros <-; rewrite matches_glob_self in Hq; discriminate).
      apply (well_formed_below (fs start) dir q);
        [assumption | apply backend_dir_nonempty | assumption..].
    + intros q Hq. apply lookup_insert_ne. intros <-. apply Hq. reflexivity.
Qed.

(** X22: Where the backend directory is there already, cleaning twice is
    cleaning once: on its own result the step succeeds and changes nothing. *)
Theorem build_prep_clean_again build_args start cleaned (name : string) :
  build_prep_clean build_args start = Built cleaned ->
  build_prep_name build_args start = Some name ->
  is_dir (fs start) (backend_dir name) = true ->
  build_prep_clean build_args cleaned = Built cleaned.
Proof.
  unfold build_prep_clean. intros Hrun Hname Hd. rewrite Hname in Hrun.
  destruct (plain_name name) eqn:Hplain; [|discriminate].
  rewrite Hd in Hrun. injection Hrun as <-.
  assert (Hagain : build_prep_name build_args
                     {| fs := run_rm_contents (backend_dir name) (fs start);
                        env := <["BACKEND_NAME" := name]> (env start) |}
                   = Some name).
  { unfold build_prep_name in *. cbn [env]. rewrite lookup_insert_eq.
    assert (Harg : default "fil" (build_args !! "BACKEND_NAME") = name).
    { unfold backend_name in Hname. destruct (env start !! "BACKEND_NAME") as [e|].
      - destruct (String.eqb_spec e (default "fil" (build_args !! "BACKEND_NAME")));
          congruence.
      - congruence. }
    rewrite Harg. unfold backend_name. rewrite String.eqb_refl. reflexivity. }
  rewrite Hagain, Hplain. cbn [fs env].
  rewrite is_dir_after_rm by exact Hd.
  rewrite run_rm_contents_again, insert_insert_eq. reflexivity.
Qed.

End BuildStages.

Lemma only_below_agrees (dir : list string) (img : Build.image) (q : list string) :
  dir `prefix_of` q ->
  Build.fs img !! q = Build.fs (Build.only_below dir img) !! q.
Proof.
  intros Hpre. cbn [Build.only_below Build.fs]. symmetry.
  destruct (Build.fs img !! q) as [x|] eqn:Hq.
  - apply map_lookup_filter_Some. split; [exact Hq | exact Hpre].
  - apply map_lookup_filter_None. left. exact Hq.
Defined.

Lemma final_stage_fails_witness :
  Build.final_stage Build.example_args Build.example_final Build.example_build_stage
  = Build.Fails
  <-> is_Some (Build.fs Build.example_final !! ["models"])
      \/ Build.fs Build.example_build_stage !! Build.backend_dir "fil" = None
      \/ existsb (Build.is_file (Build.fs Build.example_final))
           (Build.parents (Build.backend_dir "fil")) = true.
Proof.
  apply (final_stage_fails Build.example_args Build.example_final
           Build.example_build_stage "fil"); vm_compute; reflexivity.
Defined.

Lemma final_stage_only_backend_dir_witness :
  Build.final_stage Build.example_args Build.example_base Build.example_build_stage
  = Build.final_stage Build.example_args Build.example_base
      (Build.only_below (Build.backend_dir "fil") Build.example_build_stage).
Proof.
  apply (final_stage_only_backend_dir Build.example_args Build.example_base
           Build.example_build_stage
           (Build.only_below (Build.backend_dir "fil") Build.example_build_stage)
           "fil").
  - vm_compute. reflexivity.
  - reflexivity.
  - intros q Hq. apply only_below_agrees. exact Hq.
Defined.

Lemma final_stage_without_backend_name_witness :
  Build.fs Build.example_final_unnamed
    !! (["opt"; "tritonserver"; "backends"] ++ "fil" :: ["libtriton_fil.so"])
  = Build.fs Build.example_build_stage
    !! (["opt"; "tritonserver"; "backends"] ++ "fil" :: ["libtriton_fil.so"]).
Proof.
  apply (final_stage_without_backend_name ∅ Build.example_base
           Build.example_build_stage Build.example_final_unnamed);
    vm_compute; reflexivity.
Defined.

Lemma final_stage_keeps_hidden_witness :
  Build.fs Build.example_final_stamped !! (Build.backend_dir "fil" ++ ".stamp" :: [])
  = Build.fs Build.example_stamped_base !! (Build.backend_dir "fil" ++ ".stamp" :: []).
Proof.
  apply (final_stage_keeps_hidden Build.example_args Build.example_stamped_base
           Build.example_build_stage Build.example_final_stamped "fil" ".stamp" []);
    vm_compute; reflexivity.
Defined.

Lemma build_prep_clean_result_witness :
  exists name : string,
    Build.build_prep_name ∅ Build.example_base = Some name
    /\ Build.env Build.example_cleaned
       = <["BACKEND_NAME" := name]> (Build.env Build.example_base)
    /\ Build.is_dir (Build.fs Build.example_cleaned) (Build.backend_dir name) = true
    /\ (forall q, Build.matches_glob (Build.backend_dir name) q = true ->
          Build.fs Build.example_cleaned !! q = None)
    /\ (forall q, ~ Build.backend_dir name `prefix_of` q ->
          Build.fs Build.example_cleaned !! q = Build.fs Build.example_base !! q).
Proof.
  apply (build_prep_clean_result ∅ Build.example_base Build.example_cleaned).
  - exact example_base_well_formed.
  - vm_compute. reflexivity.
Defined.

Lemma build_prep_clean_again_witness :
  Build.build_prep_clean ∅ Build.example_cleaned = Build.Built Build.example_cleaned.
Proof.
  apply (build_prep_clean_again ∅ Build.example_base Build.example_cleaned "fil");
    vm_compute; reflexivity.
Defined.
